(** * Heatmapper: a shallow embedding of [heatmapper.py] and [topo.py]

    The two Python modules are embedded as Rocq functions:

    - Python [int]s are [Z]; Python [float]s are IEEE-754 binary64 values,
      represented by the Standard Library's [spec_float] with the operations
      of [SpecFloat] at precision 53 and maximal exponent 1024 (the bit-level
      specification the kernel's primitive floats obey);
    - a sample is a latitude and a longitude (numbers) and an altitude, an
      [int] as the docstring of [calculate_color] types it;
    - exceptions are the constructors of [exn]; a pure computation that may
      raise has type [result A], a computation that also reads or writes the
      file system, the network or the standard output has type [io A];
    - the imaging library is modelled by the calls the program makes to it:
      an image is its size, its background and the ordered list of filled
      rectangles drawn on it;
    - the [json] module, [repr] of a float, the imaging library's table of
      file extensions and the memory it can allocate are parameters
      ([Externals]): the program is verified for every behaviour of these
      collaborators. *)

From Stdlib Require Import ZArith List Lia Bool SpecFloat.
From stdpp Require Import gmap strings pretty.

Open Scope Z_scope.

(** ** Exceptions and the two monads *)

Inductive exn : Set :=
  | ZeroDivisionError
  | OverflowError
  | ValueError
  | IndexError
  | KeyError
  | TypeError
  | URLError
  | MemoryError.

Inductive result (A : Type) : Type :=
  | Ok (a : A)
  | Raise (e : exn).

Arguments Ok {A} a.
Arguments Raise {A} e.

Definition rbind {A B : Type} (m : result A) (k : A -> result B) : result B :=
  match m with
  | Ok a => k a
  | Raise e => Raise e
  end.

Declare Scope result_scope.
Delimit Scope result_scope with res.
Notation "x <- m ;; k" := (rbind m (fun x => k))
  (at level 100, m at next level, right associativity) : result_scope.

(** A sequential loop [for x in l: a = body(x, a)] whose body may raise. *)
Fixpoint for_each {A B : Type} (l : list B) (body : B -> A -> result A) (a : A)
  : result A :=
  match l with
  | [] => Ok a
  | x :: l' => rbind (body x a) (for_each l' body)
  end.

(** ** Python numbers *)

Module PyNum.

(** binary64 *)
Definition prec : Z := 53.
Definition emax : Z := 1024.

Inductive pynum : Set :=
  | PInt (z : Z)
  | PFloat (f : spec_float).

(** An integer as an (unnormalised) float operand [z * 2^0]. *)
Definition raw (z : Z) : spec_float :=
  match z with
  | Z0 => S754_zero false
  | Zpos p => S754_finite false p 0
  | Zneg p => S754_finite true p 0
  end.

(** [float(z)]: the nearest binary64 (ties to even); CPython raises
    [OverflowError] when [z] is beyond the binary64 range. *)
Definition float_of_int (z : Z) : result spec_float :=
  match binary_normalize prec emax z 0 false with
  | S754_infinity _ => Raise OverflowError
  | f => Ok f
  end.

(** [a / b] on two [int]s: the correctly rounded quotient of the exact
    integers (the operands are not rounded first). *)
Definition int_truediv (a b : Z) : result spec_float :=
  if b =? 0 then Raise ZeroDivisionError
  else match SFdiv prec emax (raw a) (raw b) with
       | S754_infinity _ => Raise OverflowError
       | q => Ok q
       end.

Definition is_zero (f : spec_float) : bool :=
  match f with
  | S754_zero _ => true
  | _ => false
  end.

(** [x / y] on two [float]s. *)
Definition float_truediv (x y : spec_float) : result spec_float :=
  if is_zero y then Raise ZeroDivisionError else Ok (SFdiv prec emax x y).

(** [x * n] for a [float] [x] and an [int] [n]. *)
Definition float_mul_int (x : spec_float) (n : Z) : result spec_float :=
  (f <- float_of_int n ;; Ok (SFmul prec emax x f))%res.

(** [n * x] for an [int] [n] and a [float] [x]. *)
Definition int_mul_float (n : Z) (x : spec_float) : result spec_float :=
  (f <- float_of_int n ;; Ok (SFmul prec emax f x))%res.

(** [int(x)] on a [float]: truncation toward zero. *)
Definition float_to_int (x : spec_float) : result Z :=
  match x with
  | S754_zero _ => Ok 0
  | S754_finite s m e => Ok (cond_Zopp s (Z.shiftl (Zpos m) e))
  | S754_infinity _ => Raise OverflowError
  | S754_nan => Raise ValueError
  end.

(** [math.floor(x)]: the largest integer not above [x]. *)
Definition float_floor (x : spec_float) : result Z :=
  match x with
  | S754_zero _ => Ok 0
  | S754_finite s m e => Ok (Z.shiftl (cond_Zopp s (Zpos m)) e)
  | S754_infinity _ => Raise OverflowError
  | S754_nan => Raise ValueError
  end.

(** [round(x)]: the nearest integer, ties to the even one. *)
Definition float_round (x : spec_float) : result Z :=
  match x with
  | S754_zero _ => Ok 0
  | S754_finite s m e =>
      if 0 <=? e then Ok (cond_Zopp s (Zpos m * 2 ^ e))
      else
        let d := 2 ^ (- e) in
        let q := Zpos m / d in
        let r := Zpos m mod d in
        let n := match 2 * r ?= d with
                 | Lt => q
                 | Gt => q + 1
                 | Eq => if Z.even q then q else q + 1
                 end in
        Ok (cond_Zopp s n)
  | S754_infinity _ => Raise OverflowError
  | S754_nan => Raise ValueError
  end.

(** Exact comparison of an [int] with a [float], as Python compares mixed
    operands: [None] when the float is a NaN. *)
Definition cmp_int_float (z : Z) (f : spec_float) : option comparison :=
  match f with
  | S754_nan => None
  | S754_infinity s => Some (if s then Gt else Lt)
  | S754_zero _ => Some (z ?= 0)
  | S754_finite s m e =>
      let v := cond_Zopp s (Zpos m) in
      if 0 <=? e then Some (z ?= v * 2 ^ e) else Some (z * 2 ^ (- e) ?= v)
  end.

Definition to_float (x : pynum) : result spec_float :=
  match x with
  | PInt z => float_of_int z
  | PFloat f => Ok f
  end.

(** [x == y] *)
Definition py_eqb (x y : pynum) : bool :=
  match x, y with
  | PInt a, PInt b => a =? b
  | PFloat a, PFloat b => SFeqb a b
  | PInt a, PFloat b | PFloat b, PInt a =>
      match cmp_int_float a b with
      | Some Eq => true
      | _ => false
      end
  end.

(** [x > y] *)
Definition py_gt (x y : pynum) : bool :=
  match x, y with
  | PInt a, PInt b => b <? a
  | PFloat a, PFloat b => SFltb b a
  | PInt a, PFloat b =>
      match cmp_int_float a b with
      | Some Gt => true
      | _ => false
      end
  | PFloat a, PInt b =>
      match cmp_int_float b a with
      | Some Lt => true
      | _ => false
      end
  end.

(** [max(a, b)]: [b] when [b > a], else [a]. *)
Definition py_max (a b : pynum) : pynum :=
  if py_gt b a then b else a.

(** [x - y] *)
Definition py_sub (x y : pynum) : result pynum :=
  match x, y with
  | PInt a, PInt b => Ok (PInt (a - b))
  | _, _ =>
      (a <- to_float x ;;
       b <- to_float y ;;
       Ok (PFloat (SFsub prec emax a b)))%res
  end.

(** [x / y] *)
Definition py_truediv (x y : pynum) : result pynum :=
  match x, y with
  | PInt a, PInt b => (q <- int_truediv a b ;; Ok (PFloat q))%res
  | _, _ =>
      (a <- to_float x ;;
       b <- to_float y ;;
       q <- float_truediv a b ;;
       Ok (PFloat q))%res
  end.

(** [int(x)] *)
Definition py_int (x : pynum) : result Z :=
  match x with
  | PInt z => Ok z
  | PFloat f => float_to_int f
  end.

(** [round(x)] *)
Definition py_round (x : pynum) : result Z :=
  match x with
  | PInt z => Ok z
  | PFloat f => float_round f
  end.

(** The literal [0.0083333]: the binary64 nearest to it,
    [0x1.1110c97bdf747p-7]. *)
Definition lit_0_0083333 : spec_float :=
  S754_finite false 4803820387170119 (-59).

(** [min(l)] and [max(l)] on a list of [int]s. *)
Definition list_min (l : list Z) : result Z :=
  match l with
  | [] => Raise ValueError
  | x :: l' => Ok (fold_left Z.min l' x)
  end.

Definition list_max (l : list Z) : result Z :=
  match l with
  | [] => Raise ValueError
  | x :: l' => Ok (fold_left Z.max l' x)
  end.

(** [len(set(l))]: the number of distinct values of [l] under [==]. A NaN
    differs from every value under [==], itself included; a Python set also
    compares by identity and keeps one NaN object once, so the count is that
    of Python on lists without NaN ([nan_free] below). *)
Fixpoint distinct (l : list pynum) : list pynum :=
  match l with
  | [] => []
  | x :: l' => if existsb (py_eqb x) l' then distinct l' else x :: distinct l'
  end.

(** The sign bit of a float; a NaN has none. *)
Definition sign_of (f : spec_float) : option bool :=
  match f with
  | S754_zero s | S754_infinity s | S754_finite s _ _ => Some s
  | S754_nan => None
  end.

(** [le_int f N]: the float [f] is a zero, or a finite float of non-positive
    exponent whose magnitude [m * 2^e] is at most the integer [N]. *)
Definition le_int (f : spec_float) (N : Z) : Prop :=
  match f with
  | S754_zero _ => True
  | S754_finite _ m e => e <= 0 /\ Zpos m <= N * 2 ^ (- e)
  | _ => False
  end.

(** A shift record that has lost no bit. *)
Definition exact_rec (mrs : shr_record) : Prop :=
  shr_r mrs = false /\ shr_s mrs = false.

End PyNum.
Export PyNum.

(** ** The collaborators: JSON, the file system, the network, the imaging library *)

(** A decoded JSON document. An object keeps its members in order. *)
#[warnings="-register-all"]
Inductive json : Type :=
  | JNull
  | JBool (b : bool)
  | JNum (n : pynum)
  | JStr (s : string)
  | JArr (l : list json)
  | JObj (o : list (string * json)).

(** Behaviour of library code the program calls but does not define. *)
Class Externals := {
  (** [json.loads]: [None] stands for [JSONDecodeError] (a [ValueError]); a
      text nested beyond the interpreter's recursion limit, on which
      [json.loads] raises [RecursionError], is outside the model *)
  json_loads : string -> option json;
  (** [json.dumps] *)
  json_dumps : json -> string;
  (** [repr] of a float, as an f-string prints it *)
  float_repr : spec_float -> string;
  (** whether the imaging library knows a format for the file name's
      extension, one it writes RGB images in (as PNG or JPEG); an extension
      whose format it can read only, or cannot hold an RGB image, is outside
      the model *)
  known_extension : string -> bool;
  (** whether there is memory for an image of this width and height *)
  image_fits : Z -> Z -> bool
}.

Definition color : Set := Z * Z * Z.

(** [((x1, y1), (x2, y2))] *)
Definition box : Set := (spec_float * spec_float) * (spec_float * spec_float).

Record image : Set := {
  im_size : Z * Z;
  im_background : color;
  im_rects : list (box * color)   (* filled rectangles, oldest first *)
}.

Inductive file : Type :=
  | TextFile (s : string)
  | ImageFile (im : image).

Record world : Type := {
  files : gmap string file;          (* the working directory *)
  remote : string -> option string;  (* the elevation service: URL to body *)
  requests : list string;            (* URLs requested so far, oldest first *)
  stdout : list string               (* lines printed so far, oldest first *)
}.

Definition io (A : Type) : Type := world -> result A * world.

Definition ret {A : Type} (a : A) : io A := fun w => (Ok a, w).

Definition lift {A : Type} (r : result A) : io A := fun w => (r, w).

Definition bind {A B : Type} (m : io A) (k : A -> io B) : io B :=
  fun w =>
    match m w with
    | (Ok a, w') => k a w'
    | (Raise e, w') => (Raise e, w')
    end.

Declare Scope io_scope.
Delimit Scope io_scope with io.
Notation "x <- m ;; k" := (bind m (fun x => k))
  (at level 100, m at next level, right associativity) : io_scope.

(** [try: body except ValueError: return False] *)
Definition except_ValueError (body : io bool) : io bool :=
  fun w =>
    match body w with
    | (Raise ValueError, w') => (Ok false, w')
    | r => r
    end.

Definition set_files (w : world) (fs : gmap string file) : world :=
  {| files := fs; remote := remote w; requests := requests w; stdout := stdout w |}.

(** [os.path.exists(name)] *)
Definition path_exists (name : string) : io bool :=
  fun w => (Ok (bool_decide (is_Some (files w !! name))), w).

(** [with open(name, 'w') as f: f.write(s)] *)
Definition write_text (name s : string) : io unit :=
  fun w => (Ok tt, set_files w (<[name := TextFile s]> (files w))).

(** [print(s)] *)
Definition print (s : string) : io unit :=
  fun w =>
    (Ok tt, {| files := files w; remote := remote w; requests := requests w;
               stdout := stdout w ++ [s] |}).

(** Whether the imaging library can allocate an image of this size. That
    depends on the machine ([image_fits]); an image of at most 1024 pixels a
    side is taken to fit on every machine. *)
Definition allocates {X : Externals} (width height : Z) : bool :=
  ((width <=? 1024) && (height <=? 1024)) || image_fits width height.

(** [Image.new('RGB', (width, height), background)]: the library refuses a
    negative width or height with a [ValueError]; a width or height from
    2^31 on does not fit the C [int] the library converts it to
    ([OverflowError]); and an image there is no memory for is a
    [MemoryError]. *)
Definition Image_new {X : Externals} (size : Z * Z) (background : color)
  : result image :=
  if (fst size <? 0) || (snd size <? 0) then Raise ValueError
  else if (2 ^ 31 <=? fst size) || (2 ^ 31 <=? snd size) then Raise OverflowError
  else if allocates (fst size) (snd size)
  then Ok {| im_size := size; im_background := background; im_rects := [] |}
  else Raise MemoryError.

(** [draw.rectangle(xy, fill=c)] *)
Definition draw_rectangle (im : image) (xy : box) (fill : color) : image :=
  {| im_size := im_size im; im_background := im_background im;
     im_rects := im_rects im ++ [(xy, fill)] |}.

(** [im.save(filename)]: a [ValueError] when the extension names no format,
    and a [ValueError] of the encoder when the image is empty (its width or
    its height is 0). The file name is taken to be a path that can be
    written; what a failed encoder leaves of a file that was there is not
    part of the model. *)
Definition Image_save {X : Externals} (im : image) (filename : string) : io unit :=
  fun w =>
    if known_extension filename
    then if (fst (im_size im) =? 0) || (snd (im_size im) =? 0)
         then (Raise ValueError, w)
         else (Ok tt, set_files w (<[filename := ImageFile im]> (files w)))
    else (Raise ValueError, w).

(** [writes_only fn m]: the computation [m] sends no request, keeps every
    file it finds, and writes at most the file [fn]. *)
Definition writes_only {A : Type} (fn : string) (m : io A) : Prop :=
  forall w,
    requests (snd (m w)) = requests w /\
    remote (snd (m w)) = remote w /\
    (forall k, k <> fn -> files (snd (m w)) !! k = files w !! k) /\
    (forall k, is_Some (files w !! k) -> is_Some (files (snd (m w)) !! k)).

(** ** heatmapper.py *)

Module Heatmapper.

(** One element of [topo_data]: latitude, longitude and altitude in metres
    (an [int], as [calculate_color] documents its parameters). *)
Record sample : Set := {
  latitude : pynum;
  longitude : pynum;
  altitude : Z
}.

(** [calculate_color(height, min_height, max_height)] *)
Definition calculate_color (height min_height max_height : Z) : result color :=
  if height <? 0 then
    let difference := Z.abs min_height in
    (q <- int_truediv (Z.abs height) difference ;;
     p <- float_mul_int q 255 ;;
     k <- float_to_int p ;;
     Ok (0, 0, 255 - k))%res
  else
    let difference := max_height in
    (q <- int_truediv height difference ;;
     p <- float_mul_int q 255 ;;
     k <- float_to_int p ;;
     Ok (0, 255 - k, 0))%res.

(** The argument of one [draw.rectangle] call:
    [((i * wide, j * high), ((i + 1) * wide, (j + 1) * high))]. *)
Definition cell_box (i j : nat) (wide high : spec_float) : result box :=
  (x1 <- int_mul_float (Z.of_nat i) wide ;;
   y1 <- int_mul_float (Z.of_nat j) high ;;
   x2 <- int_mul_float (Z.of_nat i + 1) wide ;;
   y2 <- int_mul_float (Z.of_nat j + 1) high ;;
   Ok ((x1, y1), (x2, y2)))%res.

(** The body of the inner loop (lines 63-64) for the cell [(i, j)]. *)
Definition paint_cell (all_heights : list Z) (n_lng : nat) (wide high : spec_float)
    (i j : nat) (im : image) : result image :=
  let height_count := (i + n_lng * j)%nat in
  (xy <- cell_box i j wide high ;;
   h <- match all_heights !! height_count with
        | Some h => Ok h
        | None => Raise IndexError
        end ;;
   lo <- list_min all_heights ;;
   hi <- list_max all_heights ;;
   fill <- calculate_color h lo hi ;;
   Ok (draw_rectangle im xy fill))%res.

(** The two nested loops (lines 61-64). *)
Definition paint_cells (all_heights : list Z) (n_lng n_lat : nat)
    (wide high : spec_float) (im : image) : result image :=
  for_each (seq 0 n_lng)
    (fun i im =>
       for_each (seq 0 n_lat)
         (fun j im => paint_cell all_heights n_lng wide high i j im) im)
    im.

(** What one iteration of the inner loop computes before it draws: the
    rectangle and its colour. *)
Definition cell (all_heights : list Z) (n_lng : nat) (wide high : spec_float)
    (i j : nat) : result (box * color) :=
  (xy <- cell_box i j wide high ;;
   h <- match all_heights !! (i + n_lng * j)%nat with
        | Some h => Ok h
        | None => Raise IndexError
        end ;;
   lo <- list_min all_heights ;;
   hi <- list_max all_heights ;;
   fill <- calculate_color h lo hi ;;
   Ok (xy, fill))%res.

(** Several [draw.rectangle] calls in a row. *)
Definition add_rects (im : image) (cs : list (box * color)) : image :=
  {| im_size := im_size im; im_background := im_background im;
     im_rects := im_rects im ++ cs |}.

(** [generate_map(topo_data, width, height, filename)] *)
Definition generate_map {X : Externals} (topo_data : list sample) (width height : Z)
    (filename : string) : io bool :=
  except_ValueError
    (let all_lats := map latitude topo_data in
     let all_lng := map longitude topo_data in
     let all_heights := map altitude topo_data in
     let all_lats := distinct all_lats in
     let all_lng := distinct all_lng in
     (high <- lift (int_truediv height (Z.of_nat (length all_lats))) ;;
      wide <- lift (int_truediv width (Z.of_nat (length all_lng))) ;;
      im <- lift (Image_new (width, height) (255, 0, 0)) ;;
      im <- lift (paint_cells all_heights (length all_lng) (length all_lats)
                    wide high im) ;;
      _ <- Image_save im filename ;;
      ret true)%io).

(** The colour scale as the specification words it, with [floor]. *)
Definition color_spec (altitude min_altitude max_altitude : Z) : result color :=
  if altitude <? 0 then
    (q <- int_truediv (Z.abs altitude) (Z.abs min_altitude) ;;
     p <- float_mul_int q 255 ;;
     k <- float_floor p ;;
     Ok (0, 0, 255 - k))%res
  else
    (q <- int_truediv altitude max_altitude ;;
     p <- float_mul_int q 255 ;;
     k <- float_floor p ;;
     Ok (0, 255 - k, 0))%res.

End Heatmapper.
Export Heatmapper.

(** ** topo.py *)

Module Topo.

(** [str(x)] of a number, as an f-string prints it. *)
Definition py_str {X : Externals} (x : pynum) : string :=
  match x with
  | PInt z => pretty z
  | PFloat f => float_repr f
  end.

(** [read_web(url)]: one request to the remote service. *)
Definition read_web (url : string) : io string :=
  fun w =>
    let w' := {| files := files w; remote := remote w;
                 requests := requests w ++ [url]; stdout := stdout w |} in
    match remote w url with
    | Some body => (Ok body, w')
    | None => (Raise URLError, w')
    end.

(** The URL [read_json_from_web] builds. *)
Definition query_url {X : Externals}
    (min_lat max_lat lat_step min_lng max_lng lng_step : pynum) : string :=
  "http://coastwatch.pfeg.noaa.gov/erddap/griddap/usgsCeSrtm30v6.json?topo[("
  +:+ py_str max_lat +:+ "):" +:+ py_str lat_step +:+ ":(" +:+ py_str min_lat
  +:+ ")][(" +:+ py_str min_lng +:+ "):" +:+ py_str lng_step +:+ ":("
  +:+ py_str max_lng +:+ ")]".

(** [read_json_from_web(min_lat, max_lat, lat_step, min_lng, max_lng, lng_step)] *)
Definition read_json_from_web {X : Externals}
    (min_lat max_lat lat_step min_lng max_lng lng_step : pynum) : io string :=
  read_web (query_url min_lat max_lat lat_step min_lng max_lng lng_step).

(** [read_json_from_file(filename)]: the file is parsed and serialised again. *)
Definition read_json_from_file {X : Externals} (filename : string) : io (option string) :=
  fun w =>
    match files w !! filename with
    | Some (TextFile s) =>
        match json_loads s with
        | Some collected_data => (Ok (Some (json_dumps collected_data)), w)
        | None => (Raise ValueError, w)
        end
    | Some (ImageFile _) => (Raise ValueError, w)  (* not text *)
    | None => (Ok None, w)
    end.

(** The value of the member [key] of an object. *)
Fixpoint obj_get (o : list (string * json)) (key : string) : option json :=
  match o with
  | [] => None
  | (k, v) :: o' => if String.eqb k key then Some v else obj_get o' key
  end.

(** [obj[key]] on a decoded JSON value and a string key. *)
Definition subscript (obj : json) (key : string) : result json :=
  match obj with
  | JObj o =>
      match obj_get o key with
      | Some v => Ok v
      | None => Raise KeyError
      end
  | _ => Raise TypeError
  end.

(** [get_topo_data_from_string(data_string)] *)
Definition get_topo_data_from_string {X : Externals} (data_string : option string)
  : result json :=
  match data_string with
  | None => Raise TypeError
  | Some s =>
      match json_loads s with
      | None => Raise ValueError
      | Some obj =>
          (table <- subscript obj "table" ;; subscript table "rows")%res
      end
  end.

End Topo.
Export Topo.

(** ** heatmapper.py, continued: the entry point that fetches or reads the cache *)

Module Coordinates.

(** [(max - min) / 0.0083333 / image_height] *)
Definition stride_quotient (lo hi : pynum) (image_height : Z) : result pynum :=
  (span <- py_sub hi lo ;;
   q <- py_truediv span (PFloat lit_0_0083333) ;;
   py_truediv q (PInt image_height))%res.

(** [int(max(1, (max - min) / 0.0083333 / image_height))] *)
Definition auto_stride (lo hi : pynum) (image_height : Z) : result pynum :=
  (q <- stride_quotient lo hi image_height ;;
   k <- py_int (py_max (PInt 1) q) ;;
   Ok (PInt k))%res.

(** Lines 129-130 (and 132-133): a stride equal to 0 is computed, any other
    is kept. *)
Definition resolve_stride (stride lo hi : pynum) (image_height : Z) : result pynum :=
  if py_eqb stride (PInt 0) then auto_stride lo hi image_height else Ok stride.

(** [topo_params]: (min_latitude, max_latitude, latitude_stride,
    min_longitude, max_longitude, longitude_stride) *)
Definition topo_params : Set := pynum * pynum * pynum * pynum * pynum * pynum.

(** The strides after lines 129-133. *)
Definition effective_strides (p : topo_params) (image_height : Z)
  : result (pynum * pynum) :=
  let '(min_latitude, max_latitude, latitude_stride,
        min_longitude, max_longitude, longitude_stride) := p in
  (latitude_stride <- resolve_stride latitude_stride min_latitude max_latitude
                        image_height ;;
   longitude_stride <- resolve_stride longitude_stride min_longitude max_longitude
                         image_height ;;
   Ok (latitude_stride, longitude_stride))%res.

(** The name of the cache file (line 135). *)
Definition cache_name {X : Externals}
    (min_latitude max_latitude latitude_stride
     min_longitude max_longitude longitude_stride : pynum) : string :=
  "topo_" +:+ py_str min_latitude +:+ " - " +:+ py_str max_latitude +:+ " - "
  +:+ py_str latitude_stride +:+ "_" +:+ py_str min_longitude +:+ " - "
  +:+ py_str max_longitude +:+ " - " +:+ py_str longitude_stride +:+ ".json".

(** [len(x)] on a decoded JSON value. *)
Definition py_len (x : json) : result nat :=
  match x with
  | JArr l => Ok (length l)
  | JObj o => Ok (length o)
  | JStr s => Ok (String.length s)
  | _ => Raise TypeError
  end.

(** One row [[lat, lng, altitude, ...]] as a [sample]. *)
Definition as_sample (row : json) : option sample :=
  match row with
  | JArr (JNum la :: JNum lo :: JNum (PInt h) :: _) =>
      Some {| latitude := la; longitude := lo; altitude := h |}
  | _ => None
  end.

(** The decoded rows as a list of samples. *)
Definition as_samples (topo_data : json) : option (list sample) :=
  match topo_data with
  | JArr rows => mapM as_sample rows
  | _ => None
  end.

(** What [e[0]], [e[1]], [e[2]] (lines 47-49) raise on a row that has no
    three elements: a short list or string has no such index, an object no
    key [0], and [null], a boolean or a number cannot be subscripted. *)
Definition row_error (row : json) : option exn :=
  match row with
  | JArr (_ :: _ :: _ :: _) => None
  | JArr _ => Some IndexError
  | JStr s => if (3 <=? String.length s)%nat then None else Some IndexError
  | JObj _ => Some KeyError
  | JNull | JBool _ | JNum _ => Some TypeError
  end.

(** The exception of the first loop (lines 46-49), raised at the first row
    that has no three elements. *)
Fixpoint first_row_error (rows : list json) : option exn :=
  match rows with
  | [] => None
  | row :: rows' =>
      match row_error row with
      | Some e => Some e
      | None => first_row_error rows'
      end
  end.

(** The exception raised on rows that are not samples. A row without
    three elements raises in the first loop, as [first_row_error] says. What
    is left (rows of three elements that are not numbers and an [int], a
    float altitude among them, or rows that are not a list at all) is
    outside the sample type of this embedding, which raises [TypeError] for
    it; Python raises there too in most cases (a [TypeError], not always at
    the same place), and renders a float altitude. *)
Definition rows_error (topo_data : json) : exn :=
  match topo_data with
  | JArr rows =>
      match first_row_error rows with
      | Some e => e
      | None => TypeError
      end
  | _ => TypeError
  end.

(** [generate_map] on decoded JSON: rows [[number, number, int, ...]] are
    samples. *)
Definition generate_map_json {X : Externals} (topo_data : json) (width height : Z)
    (filename : string) : io bool :=
  match as_samples topo_data with
  | Some samples => generate_map samples width height filename
  | None => lift (Raise (rows_error topo_data))
  end.

(** [generate_map_with_coordinates(topo_params, image_width, image_height, filename)] *)
Definition generate_map_with_coordinates {X : Externals} (p : topo_params)
    (image_width image_height : Z) (filename : string) : io bool :=
  let '(min_latitude, max_latitude, _, min_longitude, max_longitude, _) := p in
  (strides <- lift (effective_strides p image_height) ;;
   let '(latitude_stride, longitude_stride) := strides in
   let cache := cache_name min_latitude max_latitude latitude_stride
                  min_longitude max_longitude longitude_stride in
   cached <- path_exists cache ;;
   _ <- (if negb cached then
           (result <- read_json_from_web min_latitude max_latitude latitude_stride
                        min_longitude max_longitude longitude_stride ;;
            write_text cache result)
         else ret tt) ;;
   data_string <- read_json_from_file cache ;;
   topo_data <- lift (get_topo_data_from_string data_string) ;;
   n <- lift (py_len topo_data) ;;
   _ <- print ("pikkus " +:+ pretty n) ;;
   _ <- generate_map_json topo_data image_width image_height filename ;;
   ret true)%io.

(** The part of [generate_map_with_coordinates] that follows the cache step
    (lines 142-146). *)
Definition render_cached {X : Externals} (cache : string) (image_width image_height : Z)
    (filename : string) : io bool :=
  (data_string <- read_json_from_file cache ;;
   topo_data <- lift (get_topo_data_from_string data_string) ;;
   n <- lift (py_len topo_data) ;;
   _ <- print ("pikkus " +:+ pretty n) ;;
   _ <- generate_map_json topo_data image_width image_height filename ;;
   ret true)%io.

(** The stride rule of lines 129-133, as a relation: a non-zero stride is
    kept; a zero stride becomes [max(1, t)] where [t] is the quotient
    [(max - min) / 0.0083333 / image_height] truncated toward zero. *)
Definition stride_rule (stride lo hi : pynum) (image_height : Z) (r : pynum) : Prop :=
  (py_eqb stride (PInt 0) = false /\ r = stride) \/
  (py_eqb stride (PInt 0) = true /\
   exists q t, stride_quotient lo hi image_height = Ok (PFloat q) /\
               float_to_int q = Ok t /\ r = PInt (Z.max 1 t)).

(** The stride rule as the specification words it:
    [max(1, round((max - min) / 0.0083333 / image_height))]. *)
Definition stride_spec (lo hi : pynum) (image_height : Z) : result pynum :=
  (q <- stride_quotient lo hi image_height ;;
   r <- py_round q ;;
   Ok (PInt (Z.max 1 r)))%res.

End Coordinates.
Export Coordinates.

(** ** heatmapper.py, the [__main__] block *)

Module Main.

(** The literal [57.5], exactly [115 / 2]. *)
Definition lit_57_5 : spec_float := S754_finite false 8092405580431360 (-47).

(** The URL the block requests. *)
Definition main_url {X : Externals} : string :=
  query_url (PFloat lit_57_5) (PInt 60) (PInt 2) (PInt 22) (PInt 29) (PInt 2).

(** Lines 150-151: the payload is fetched, decoded and rendered into
    [mymap.png]. No cache file is involved and nothing is printed; the
    result of [generate_map] is dropped. *)
Definition main {X : Externals} : io unit :=
  (data_string <- read_json_from_web (PFloat lit_57_5) (PInt 60) (PInt 2)
                    (PInt 22) (PInt 29) (PInt 2) ;;
   topo_data <- lift (get_topo_data_from_string (Some data_string)) ;;
   _ <- generate_map_json topo_data 1500 1000 "mymap.png" ;;
   ret tt)%io.

End Main.
Export Main.

(** ** Vocabulary of the properties of the calls *)

(** The world [w] with another elevation service. *)
Definition with_remote (w : world) (r : string -> option string) : world :=
  {| files := files w; remote := r; requests := requests w; stdout := stdout w |}.

(** What a computation that sends no request does to the world: it prints
    the lines [out] and stores at most one image, under [fn]. *)
Definition effect (fn : string) (w : world) (out : list string) (upd : option image)
  : world :=
  {| files := match upd with
              | Some im => <[fn := ImageFile im]> (files w)
              | None => files w
              end;
     remote := remote w; requests := requests w; stdout := stdout w ++ out |}.

(** A number that is a NaN. *)
Definition is_nan (x : pynum) : bool :=
  match x with
  | PFloat S754_nan => true
  | _ => false
  end.

(** No latitude and no longitude of the samples is a NaN. *)
Definition nan_free (topo_data : list sample) : bool :=
  forallb (fun s => negb (is_nan (latitude s)) && negb (is_nan (longitude s))) topo_data.


(** A character of a decimal numeral: a digit or the minus sign. *)
Definition numeral_char (c : Ascii.ascii) : bool :=
  let n := Ascii.nat_of_ascii c in
  ((48 <=? n)%nat && (n <=? 57)%nat) || (n =? 45)%nat.

(** A string made of digits and minus signs. *)
Fixpoint numeral (s : string) : bool :=
  match s with
  | EmptyString => true
  | String c s' => numeral_char c && numeral s'
  end.

(** The first character of [s] is none of a numeral. *)
Definition starts_outside (s : string) : bool :=
  match s with
  | EmptyString => false
  | String c _ => negb (numeral_char c)
  end.

(** ** An example environment

    Concrete collaborators and inputs for the examples: the samples of the
    docstring of [generate_map], a small document of the elevation service,
    and a [json] module that reads the texts used here. *)

Module Example.

Definition at_ (la lo h : Z) : sample :=
  {| latitude := PInt la; longitude := PInt lo; altitude := h |}.

(** The twelve samples of the docstring of [generate_map]. *)
Definition docstring_samples : list sample :=
  [at_ 10 10 1; at_ 10 12 1; at_ 10 14 2;
   at_ 12 10 1; at_ 12 12 3; at_ 12 14 1;
   at_ 14 10 6; at_ 14 12 9; at_ 14 14 12;
   at_ 16 10 1; at_ 16 12 1; at_ 16 14 3].

(** A double quote, and a quoted string. *)
Definition dq : string := String (Ascii.ascii_of_nat 34) EmptyString.
Definition quoted (s : string) : string := dq +:+ s +:+ dq.

(** [json.dumps] on documents made of [null], booleans, integers, strings
    that need no escape, arrays and objects. *)
Fixpoint plain_dumps (v : json) : string :=
  match v with
  | JNull => "null"
  | JBool b => if b then "true" else "false"
  | JNum (PInt z) => pretty z
  | JNum (PFloat _) => "nan"
  | JStr s => quoted s
  | JArr l => "[" +:+ String.concat ", " (map plain_dumps l) +:+ "]"
  | JObj o =>
      "{" +:+ String.concat ", "
                (map (fun kv => match kv with
                                | (k, x) => quoted k +:+ ": " +:+ plain_dumps x
                                end) o) +:+ "}"
  end.

Definition example_row (la lo h : Z) : json :=
  JArr [JNum (PInt la); JNum (PInt lo); JNum (PInt h)].

Definition example_rows : json :=
  JArr [example_row 10 10 1; example_row 10 12 2; example_row 12 10 3; example_row 12 12 4].

Definition example_doc : json := JObj [("table", JObj [("rows", example_rows)])]%string.

(** The document as the service might send it, without spaces. *)
Definition compact_text : string :=
  "{" +:+ quoted "table" +:+ ":{" +:+ quoted "rows"
  +:+ ":[[10,10,1],[10,12,2],[12,10,3],[12,12,4]]}}".

(** A document whose rows are not samples. *)
Definition odd_rows : json := JArr [JArr [JNum (PInt 1); JNum (PInt 2)]; JStr "x"; JNull].
Definition odd_doc : json := JObj [("table", JObj [("rows", odd_rows)])]%string.

(** [json.loads] on the texts of the examples. *)
Definition example_loads (s : string) : option json :=
  if decide (s = compact_text) then Some example_doc
  else if decide (s = plain_dumps example_doc) then Some example_doc
  else if decide (s = plain_dumps odd_doc) then Some odd_doc
  else None.

Definition example_externals : Externals := {|
  json_loads := example_loads;
  json_dumps := plain_dumps;
  float_repr := fun _ => "nan"%string;
  known_extension := fun s => String.eqb (String.substring (String.length s - 4) 4 s) ".png";
  image_fits := fun width height => width * height <=? 2 ^ 26
|}.

Definition example_params : topo_params :=
  (PInt 10, PInt 12, PInt 2, PInt 10, PInt 12, PInt 2).

Definition example_url : string :=
  query_url (X := example_externals)
    (PInt 10) (PInt 12) (PInt 2) (PInt 10) (PInt 12) (PInt 2).

Definition example_cache : string :=
  cache_name (X := example_externals)
    (PInt 10) (PInt 12) (PInt 2) (PInt 10) (PInt 12) (PInt 2).

(** A fresh working directory and a service that answers the example query. *)
Definition fresh_world : world := {|
  files := ∅;
  remote := fun url => if decide (url = example_url) then Some compact_text else None;
  requests := [];
  stdout := []
|}.

(** The same with the example's cache file in place. *)
Definition cached_world : world :=
  set_files fresh_world {[ example_cache := TextFile compact_text ]}.


(** A service that answers every query with a page that is not JSON. *)
Definition broken_world : world :=
  with_remote fresh_world (fun _ => Some "<html>"%string).

(** Parameters whose query the example service does not answer. *)
Definition unanswered_params : topo_params :=
  (PInt 10, PInt 12, PInt 1, PInt 10, PInt 12, PInt 1).

End Example.

(** * Verification *)

(** ** Rounding: bounds and signs of binary64 results *)

Module FloatFacts.

Lemma digits2_pos_size p : digits2_pos p = Pos.size p.
Proof. induction p; simpl; congruence. Qed.

Lemma Zdigits2_lt m k : 0 <= m -> 0 <= k -> m < 2 ^ k -> Zdigits2 m <= k.
Proof.
  intros Hm Hk Hlt. destruct m as [|p|p]; simpl; try lia.
  rewrite digits2_pos_size.
  destruct (Z_lt_le_dec k (Zpos (Pos.size p))) as [H|H]; [|exact H].
  exfalso. pose proof (Pos.size_le p) as Hle.
  assert (2 ^ (Z.pos (Pos.size p)) <= Z.pos p~0) as Hz.
  { rewrite <- Pos2Z.inj_pow. apply Pos2Z.pos_le_pos. exact Hle. }
  assert (2 ^ (k + 1) <= 2 ^ Z.pos (Pos.size p)) by (apply Z.pow_le_mono_r; lia).
  rewrite Z.pow_add_r in H0 by lia. lia.
Qed.


Lemma shr_1_m mrs : 0 <= shr_m mrs -> shr_m (shr_1 mrs) = shr_m mrs / 2.
Proof.
  destruct mrs as [m r s]; simpl; intros Hm.
  destruct m as [|[p|p|]|p]; simpl; try lia; try reflexivity.
  - rewrite Pos2Z.inj_xI. apply Z.div_unique with 1; lia.
  - rewrite Pos2Z.inj_xO. apply Z.div_unique with 0; lia.
Qed.

Lemma shr_1_exact mrs :
  0 <= shr_m mrs -> exact_rec mrs -> shr_m mrs mod 2 = 0 -> exact_rec (shr_1 mrs).
Proof.
  destruct mrs as [m r s]; unfold exact_rec; simpl; intros Hm [-> ->] Hmod.
  destruct m as [|[p|p|]|p]; simpl; try lia; auto.
  - rewrite Pos2Z.inj_xI in Hmod. exfalso.
    rewrite Z.add_comm, Z.mul_comm, Z.mod_add in Hmod by lia. discriminate.
  - discriminate.
Qed.

Lemma iter_shr_1 p : forall mrs, 0 <= shr_m mrs ->
  shr_m (SpecFloat.iter_pos shr_1 p mrs) = shr_m mrs / 2 ^ Zpos p /\
  (exact_rec mrs -> shr_m mrs mod 2 ^ Zpos p = 0 -> exact_rec (SpecFloat.iter_pos shr_1 p mrs)).
Proof.
  induction p as [p IH|p IH|]; intros mrs Hm; cbn [SpecFloat.iter_pos].
  - pose proof (shr_1_m mrs Hm) as H1.
    assert (0 <= shr_m (shr_1 mrs)) as Hm1 by (rewrite H1; apply Z.div_pos; lia).
    destruct (IH _ Hm1) as [H2 E2].
    assert (0 <= shr_m (SpecFloat.iter_pos shr_1 p (shr_1 mrs))) as Hm2
      by (rewrite H2; apply Z.div_pos; lia).
    destruct (IH _ Hm2) as [H3 E3].
    assert (2 ^ Z.pos p~1 = 2 * 2 ^ Z.pos p * 2 ^ Z.pos p) as Hp.
    { replace (Z.pos p~1) with (1 + Z.pos p + Z.pos p) by lia.
      rewrite !Z.pow_add_r by lia. reflexivity. }
    assert (0 < 2 ^ Z.pos p) as Hpos by (apply Z.pow_pos_nonneg; lia).
    split.
    + rewrite H3, H2, H1, Hp, !Z.div_div by lia. f_equal. lia.
    + intros Ex Hmod. rewrite Hp in Hmod.
      apply Z.mod_divide in Hmod; [|lia]. destruct Hmod as [c Hc].
      apply E3.
      * apply E2.
        -- apply shr_1_exact; auto. rewrite Hc.
           replace (c * (2 * 2 ^ Z.pos p * 2 ^ Z.pos p)) with ((c * 2 ^ Z.pos p * 2 ^ Z.pos p) * 2) by lia.
           apply Z.mod_mul; lia.
        -- rewrite H1, Hc.
           replace (c * (2 * 2 ^ Z.pos p * 2 ^ Z.pos p)) with ((c * 2 ^ Z.pos p * 2 ^ Z.pos p) * 2) by lia.
           rewrite Z.div_mul by lia. apply Z.mod_mul; lia.
      * rewrite H2, H1, Hc.
        replace (c * (2 * 2 ^ Z.pos p * 2 ^ Z.pos p)) with ((c * 2 ^ Z.pos p * 2 ^ Z.pos p) * 2) by lia.
        rewrite Z.div_mul by lia. rewrite Z.div_mul by lia. apply Z.mod_mul; lia.
  - destruct (IH _ Hm) as [H2 E2].
    assert (0 <= shr_m (SpecFloat.iter_pos shr_1 p mrs)) as Hm2
      by (rewrite H2; apply Z.div_pos; lia).
    destruct (IH _ Hm2) as [H3 E3].
    assert (2 ^ Z.pos p~0 = 2 ^ Z.pos p * 2 ^ Z.pos p) as Hp.
    { replace (Z.pos p~0) with (Z.pos p + Z.pos p) by lia.
      rewrite Z.pow_add_r by lia. reflexivity. }
    assert (0 < 2 ^ Z.pos p) as Hpos by (apply Z.pow_pos_nonneg; lia).
    split.
    + rewrite H3, H2, Hp, !Z.div_div by lia. reflexivity.
    + intros Ex Hmod. rewrite Hp in Hmod.
      apply Z.mod_divide in Hmod; [|lia]. destruct Hmod as [c Hc].
      apply E3.
      * apply E2; auto. rewrite Hc, Z.mul_assoc. apply Z.mod_mul; lia.
      * rewrite H2, Hc, Z.mul_assoc, Z.div_mul by lia. apply Z.mod_mul; lia.
  - change (2 ^ 1) with 2. split.
    + rewrite shr_1_m by auto. reflexivity.
    + intros Ex Hmod. apply shr_1_exact; auto.
Qed.

Lemma shr_m_of_loc m l : shr_m (shr_record_of_loc m l) = m.
Proof. destruct l as [|[]]; reflexivity. Qed.

Lemma loc_of_exact mrs : exact_rec mrs -> loc_of_shr_record mrs = loc_Exact.
Proof. destruct mrs as [m r s]; intros [H1 H2]; simpl in *; subst; reflexivity. Qed.

Lemma shr_fexp_spec m e l :
  0 <= m ->
  let k := Z.max 0 (fexp prec emax (Zdigits2 m + e) - e) in
  snd (shr_fexp prec emax m e l) = e + k /\
  shr_m (fst (shr_fexp prec emax m e l)) = m / 2 ^ k /\
  (l = loc_Exact -> m mod 2 ^ k = 0 ->
   loc_of_shr_record (fst (shr_fexp prec emax m e l)) = loc_Exact).
Proof.
  intros Hm k. unfold shr_fexp, shr. subst k.
  destruct (fexp prec emax (Zdigits2 m + e) - e) as [|p|p] eqn:Hk; cbn [fst snd].
  - rewrite Z.max_l by lia. change (2 ^ 0) with 1. rewrite Z.div_1_r, shr_m_of_loc.
    repeat split; try lia. intros -> _. reflexivity.
  - rewrite Z.max_r by lia.
    destruct (iter_shr_1 p (shr_record_of_loc m l)) as [H1 H2].
    { rewrite shr_m_of_loc; exact Hm. }
    rewrite shr_m_of_loc in H1, H2. repeat split; auto.
    intros -> Hmod. apply loc_of_exact, H2; auto. split; reflexivity.
  - rewrite Z.max_l by lia. change (2 ^ 0) with 1. rewrite Z.div_1_r, shr_m_of_loc.
    repeat split; try lia. intros -> _. reflexivity.
Qed.

Lemma round_nearest_even_bounds m l :
  m <= round_nearest_even m l <= m + 1 /\ (l = loc_Exact -> round_nearest_even m l = m).
Proof.
  destruct l as [|[]]; simpl; try destruct (Z.even m); split; auto; try lia; discriminate.
Qed.

Lemma fexp_neg d : d <= 52 -> fexp prec emax d < 0.
Proof. unfold fexp, SpecFloat.emin, prec, emax. lia. Qed.

Lemma binary_round_aux_le s mx ex lx N :
  0 <= mx -> 0 <= N < 2 ^ 52 -> ex <= 0 ->
  mx <= N * 2 ^ (- ex) ->
  (lx <> loc_Exact -> mx < N * 2 ^ (- ex)) ->
  le_int (binary_round_aux prec emax s mx ex lx) N /\
  (sign_of (binary_round_aux prec emax s mx ex lx) = Some s).
Proof.
  intros Hmx HN Hex Hle Hlt. unfold binary_round_aux.
  pose proof (shr_fexp_spec mx ex lx Hmx) as S1. cbv zeta in S1.
  destruct (shr_fexp prec emax mx ex lx) as [mrs1 e1]. cbn [fst snd] in S1.
  destruct S1 as (He1 & Hm1 & Hx1).
  set (k1 := Z.max 0 (fexp prec emax (Zdigits2 mx + ex) - ex)) in *.
  assert (0 < 2 ^ (- ex)) as Hpex by (apply Z.pow_pos_nonneg; lia).
  assert (Zdigits2 mx + ex <= 52) as Hd1.
  { assert (Zdigits2 mx <= 52 - ex); [|lia].
    apply Zdigits2_lt; try lia.
    replace (52 - ex) with (52 + - ex) by lia. rewrite Z.pow_add_r by lia. nia. }
  pose proof (fexp_neg _ Hd1) as Hf1.
  assert (0 <= k1) as Hk1 by (subst k1; lia).
  assert (e1 <= 0) as He1' by (subst k1; lia).
  assert (0 < 2 ^ k1) as Hpk1 by (apply Z.pow_pos_nonneg; lia).
  assert (0 < 2 ^ (- e1)) as Hpe1 by (apply Z.pow_pos_nonneg; lia).
  assert (2 ^ (- ex) = 2 ^ (- e1) * 2 ^ k1) as Hsplit.
  { rewrite <- Z.pow_add_r by lia. f_equal. lia. }
  set (m1 := shr_m mrs1) in *.
  assert (0 <= m1) as Hm1pos by (rewrite Hm1; apply Z.div_pos; lia).
  assert (m1 <= N * 2 ^ (- e1)) as Hm1le.
  { rewrite Hm1. apply Z.div_le_upper_bound; [lia|]. rewrite Hsplit in Hle. lia. }
  assert (loc_of_shr_record mrs1 <> loc_Exact -> m1 < N * 2 ^ (- e1)) as Hm1lt.
  { intros Hne. rewrite Hm1. apply Z.div_lt_upper_bound; [lia|].
    destruct (Z.eq_dec mx (N * 2 ^ (- ex))) as [Heq|Hneq].
    - exfalso. apply Hne. apply Hx1.
      + destruct lx; [reflexivity|]. exfalso. assert (mx < N * 2 ^ (- ex)); [apply Hlt; discriminate|lia].
      + rewrite Heq, Hsplit, Z.mul_assoc. apply Z.mod_mul. lia.
    - rewrite Hsplit in Hle, Hneq. lia. }
  pose proof (round_nearest_even_bounds m1 (loc_of_shr_record mrs1)) as [Hr1 Hr2].
  set (m2 := round_nearest_even m1 (loc_of_shr_record mrs1)) in *.
  assert (0 <= m2 <= N * 2 ^ (- e1)) as Hm2.
  { split; [lia|].
    destruct (loc_of_shr_record mrs1) eqn:Hl.
    - rewrite Hr2 by reflexivity. exact Hm1le.
    - assert (m1 < N * 2 ^ (- e1)) by (apply Hm1lt; discriminate). lia. }
  pose proof (shr_fexp_spec m2 e1 loc_Exact (proj1 Hm2)) as S2. cbv zeta in S2.
  destruct (shr_fexp prec emax m2 e1 loc_Exact) as [mrs2 e2]. cbn [fst snd] in S2.
  destruct S2 as (He2 & Hm3 & _).
  set (k2 := Z.max 0 (fexp prec emax (Zdigits2 m2 + e1) - e1)) in *.
  assert (Zdigits2 m2 + e1 <= 52) as Hd2.
  { assert (Zdigits2 m2 <= 52 - e1); [|lia].
    apply Zdigits2_lt; try lia.
    replace (52 - e1) with (52 + - e1) by lia. rewrite Z.pow_add_r by lia. nia. }
  pose proof (fexp_neg _ Hd2) as Hf2.
  assert (0 <= k2) as Hk2 by (subst k2; lia).
  assert (e2 <= 0) as He2' by (subst k2; lia).
  assert (0 < 2 ^ k2) as Hpk2 by (apply Z.pow_pos_nonneg; lia).
  assert (0 < 2 ^ (- e2)) as Hpe2 by (apply Z.pow_pos_nonneg; lia).
  assert (2 ^ (- e1) = 2 ^ (- e2) * 2 ^ k2) as Hsplit2.
  { rewrite <- Z.pow_add_r by lia. f_equal. lia. }
  assert (0 <= shr_m mrs2 <= N * 2 ^ (- e2)) as Hm3le.
  { rewrite Hm3. split; [apply Z.div_pos; lia|].
    apply Z.div_le_upper_bound; [lia|]. rewrite Hsplit2 in Hm2. lia. }
  destruct (shr_m mrs2) as [|m3|m3] eqn:Hm3e.
  - split; simpl; auto.
  - assert ((e2 <=? emax - prec) = true) as ->.
    { apply Z.leb_le. unfold emax, prec. lia. }
    split; simpl; auto. split; [exact He2'|apply Hm3le].
  - lia.
Qed.

Lemma new_location_exact n : new_location n 0 = loc_Exact.
Proof. unfold new_location, new_location_even, new_location_odd. destruct (Z.even n); reflexivity. Qed.

Lemma Zdigits2_pos_bounds p : 2 ^ (Zdigits2 (Zpos p) - 1) <= Zpos p < 2 ^ Zdigits2 (Zpos p).
Proof.
  cbn [Zdigits2]. rewrite digits2_pos_size. split.
  - pose proof (Pos.size_le p) as H.
    assert (2 ^ Z.pos (Pos.size p) <= Z.pos p~0) as Hz.
    { rewrite <- Pos2Z.inj_pow. apply Pos2Z.pos_le_pos. exact H. }
    replace (Z.pos (Pos.size p)) with (1 + (Z.pos (Pos.size p) - 1)) in Hz by lia.
    rewrite Z.pow_add_r in Hz by lia. change (2 ^ 1) with 2 in Hz. lia.
  - pose proof (Pos.size_gt p) as H. rewrite <- Pos2Z.inj_pow. apply Pos2Z.pos_lt_pos. exact H.
Qed.

Lemma SFdiv_le a b s N :
  0 <= N < 2 ^ 52 -> Zpos a <= N * Zpos b ->
  le_int (SFdiv prec emax (S754_finite s a 0) (S754_finite s b 0)) N /\
  sign_of (SFdiv prec emax (S754_finite s a 0) (S754_finite s b 0)) = Some false.
Proof.
  intros HN Hab. unfold SFdiv, SFdiv_core_binary.
  set (d1 := Zdigits2 (Z.pos a)). set (d2 := Zdigits2 (Z.pos b)).
  pose proof (Zdigits2_pos_bounds a) as Ha. pose proof (Zdigits2_pos_bounds b) as Hb.
  fold d1 in Ha. fold d2 in Hb.
  assert (0 < d1 /\ 0 < d2) as [Hd1 Hd2] by (subst d1 d2; simpl; lia).
  assert (d1 <= d2 + 52) as Hd.
  { subst d1. apply Zdigits2_lt; try lia. rewrite Z.pow_add_r by lia. nia. }
  set (e' := Z.min (fexp prec emax (d1 + 0 - (d2 + 0))) (0 - 0)).
  assert (e' < 0) as He'.
  { subst e'. pose proof (fexp_neg (d1 + 0 - (d2 + 0))). lia. }
  replace (0 - 0 - e') with (- e') by lia.
  destruct (- e') as [|p|p] eqn:Hs; try lia.
  rewrite Z.shiftl_mul_pow2 by lia.
  destruct (Z.div_eucl (Z.pos a * 2 ^ Z.pos p) (Z.pos b)) as [q r] eqn:Hqr.
  pose proof (Z_div_mod (Z.pos a * 2 ^ Z.pos p) (Z.pos b) ltac:(lia)) as Hdm.
  rewrite Hqr in Hdm. destruct Hdm as [Heq Hr].
  assert (0 < 2 ^ Z.pos p) as Hpp by (apply Z.pow_pos_nonneg; lia).
  assert (0 <= q) as Hq by nia.
  replace (xorb s s) with false by (destruct s; reflexivity).
  apply binary_round_aux_le; try lia.
  - rewrite Hs. nia.
  - rewrite Hs. intros Hne.
    assert (r <> 0) as Hr0 by (intros ->; apply Hne, new_location_exact).
    nia.
Qed.

Lemma binary_round_aux_sign s mx ex lx :
  0 <= mx -> sign_of (binary_round_aux prec emax s mx ex lx) = Some s.
Proof.
  intros Hmx. unfold binary_round_aux.
  pose proof (shr_fexp_spec mx ex lx Hmx) as S1. cbv zeta in S1.
  destruct (shr_fexp prec emax mx ex lx) as [mrs1 e1]. cbn [fst snd] in S1.
  destruct S1 as (_ & Hm1 & _).
  assert (0 <= shr_m mrs1) as Hm1pos.
  { rewrite Hm1. apply Z.div_pos; [lia|]. apply Z.pow_pos_nonneg; lia. }
  pose proof (round_nearest_even_bounds (shr_m mrs1) (loc_of_shr_record mrs1)) as [Hr1 _].
  assert (0 <= round_nearest_even (shr_m mrs1) (loc_of_shr_record mrs1)) as Hm2 by lia.
  pose proof (shr_fexp_spec _ e1 loc_Exact Hm2) as S2. cbv zeta in S2.
  destruct (shr_fexp prec emax _ e1 loc_Exact) as [mrs2 e2]. cbn [fst snd] in S2.
  destruct S2 as (_ & Hm3 & _).
  assert (0 <= shr_m mrs2) as Hm3pos.
  { rewrite Hm3. apply Z.div_pos; [lia|]. apply Z.pow_pos_nonneg; lia. }
  destruct (shr_m mrs2); [reflexivity| |lia].
  destruct (_ <=? _); reflexivity.
Qed.

Lemma pos_iter_xO m d : Zpos (Pos.iter xO m d) = Zpos m * 2 ^ Zpos d.
Proof.
  revert m. induction d as [|d IH] using Pos.peano_ind; intros m.
  - simpl. lia.
  - rewrite Pos.iter_succ. 
    replace (Z.pos (Pos.succ d)) with (1 + Z.pos d) by lia.
    rewrite Z.pow_add_r by lia. change (2 ^ 1) with 2.
    specialize (IH m). lia.
Qed.

Lemma int_truediv_le a b N :
  0 <= a -> 0 < b -> 0 <= N < 2 ^ 52 -> a <= N * b ->
  exists q, int_truediv a b = Ok q /\ le_int q N /\ sign_of q = Some false.
Proof.
  intros Ha Hb HN Hle. unfold int_truediv.
  destruct (Z.eqb_spec b 0) as [->|_]; [lia|].
  destruct b as [|b|b]; try lia.
  destruct a as [|a|a]; try lia.
  - simpl. eexists; repeat split.
  - cbn [raw]. destruct (SFdiv_le a b false N HN Hle) as [H1 H2].
    destruct (SFdiv prec emax (S754_finite false a 0) (S754_finite false b 0)) eqn:E;
      simpl in H1; try contradiction;
      (eexists; split; [reflexivity|split; [exact H1|exact H2]]).
Qed.

Lemma float_of_int_le z :
  0 <= z < 2 ^ 52 ->
  exists f, float_of_int z = Ok f /\ le_int f z /\ sign_of f = Some false.
Proof.
  intros Hz. unfold float_of_int, binary_normalize.
  destruct z as [|m|m]; try lia.
  - eexists; repeat split.
  - unfold binary_round, shl_align.
    pose proof (Zdigits2_pos_bounds m) as Hd. cbn [Zdigits2] in Hd.
    assert (Z.pos (digits2_pos m) <= 52) as Hd52.
    { apply (Zdigits2_lt (Zpos m) 52); lia. }
    pose proof (fexp_neg (Z.pos (digits2_pos m) + 0) ltac:(lia)) as Hf.
    destruct (fexp prec emax (Z.pos (digits2_pos m) + 0) - 0) as [|d|d] eqn:Hfe; try lia.
    assert (fexp prec emax (Z.pos (digits2_pos m) + 0) = Zneg d) as -> by lia.
    destruct (binary_round_aux_le false (Zpos (Pos.iter xO m d)) (Zneg d) loc_Exact (Zpos m))
      as [H1 H2]; try lia.
    + rewrite pos_iter_xO. change (- Z.neg d) with (Z.pos d). lia.
    + intros H; contradiction H; reflexivity.
    + destruct (binary_round_aux _ _ _ _ _ _) eqn:E;
        simpl in H1; try contradiction;
        (eexists; split; [reflexivity|split; [exact H1|exact H2]]).
Qed.

Lemma SFmul_le x y Nx Ny :
  le_int x Nx -> le_int y Ny -> sign_of x = Some false -> sign_of y = Some false ->
  0 <= Nx -> 0 <= Ny -> Nx * Ny < 2 ^ 52 ->
  le_int (SFmul prec emax x y) (Nx * Ny) /\ sign_of (SFmul prec emax x y) = Some false.
Proof.
  intros Hx Hy Sx Sy HNx HNy HN.
  destruct x as [sx|sx| |sx mx ex], y as [sy|sy| |sy my ey];
    simpl in Hx, Hy, Sx, Sy; try contradiction;
    injection Sx as ->; injection Sy as ->; try (split; reflexivity).
  cbn [SFmul xorb]. destruct Hx as [Hex Hmx], Hy as [Hey Hmy].
  assert (0 < 2 ^ (- ex)) by (apply Z.pow_pos_nonneg; lia).
  assert (0 < 2 ^ (- ey)) by (apply Z.pow_pos_nonneg; lia).
  assert (2 ^ (- (ex + ey)) = 2 ^ (- ex) * 2 ^ (- ey)) as Hp.
  { rewrite <- Z.pow_add_r by lia. f_equal. lia. }
  apply binary_round_aux_le; try lia.
  - rewrite Hp, Pos2Z.inj_mul. nia.
  - intros Hne; contradiction Hne; reflexivity.
Qed.

Lemma float_to_int_le x N :
  0 <= N -> le_int x N -> sign_of x = Some false ->
  exists t, float_to_int x = Ok t /\ 0 <= t <= N.
Proof.
  intros HN Hx Sx. destruct x as [s|s| |s m e]; simpl in Hx, Sx; try contradiction.
  - exists 0. split; [reflexivity|lia].
  - injection Sx as ->. destruct Hx as [He Hm]. eexists; split; [reflexivity|].
    cbn [cond_Zopp]. rewrite Z.shiftl_div_pow2 by lia.
    assert (0 < 2 ^ (- e)) by (apply Z.pow_pos_nonneg; lia).
    split; [apply Z.div_pos; lia|apply Z.div_le_upper_bound; lia].
Qed.

Lemma float_to_int_floor x :
  sign_of x = Some false -> float_to_int x = float_floor x.
Proof. destruct x as [s|s| |s m e]; simpl; intros [= ->]; reflexivity. Qed.

(** Division of a non-negative integer by a positive one is never negative. *)
Lemma int_truediv_sign a b q :
  0 <= a -> 0 < b -> int_truediv a b = Ok q -> sign_of q = Some false.
Proof.
  intros Ha Hb. unfold int_truediv.
  destruct (Z.eqb_spec b 0) as [->|_]; [lia|].
  destruct b as [|b|b]; try lia.
  destruct a as [|a|a]; try lia.
  - simpl. intros [= <-]. reflexivity.
  - cbn [raw SFdiv]. destruct (SFdiv_core_binary prec emax (Z.pos a) 0 (Z.pos b) 0) as [[mz ez] lz] eqn:E.
    assert (0 <= mz) as Hmz.
    { unfold SFdiv_core_binary in E.
      destruct (Z.div_eucl _ (Z.pos b)) as [q' r'] eqn:Hqr in E.
      injection E as <- _ _.
      match type of Hqr with Z.div_eucl ?x _ = _ =>
        pose proof (Z_div_mod x (Z.pos b) ltac:(lia)) as Hdm; rewrite Hqr in Hdm;
        assert (0 <= x) as Hx end.
      { destruct (_ - _ - _); try lia. rewrite Z.shiftl_mul_pow2 by lia.
        apply Z.mul_nonneg_nonneg; [lia|]. apply Z.pow_nonneg; lia. }
      nia. }
    pose proof (binary_round_aux_sign (xorb false false) mz ez lz Hmz) as Hs.
    destruct (binary_round_aux _ _ _ _ _ _); try discriminate; intros [= <-]; exact Hs.
Qed.

Lemma float_mul_int_sign q n p :
  sign_of q = Some false -> 0 <= n -> float_mul_int q n = Ok p ->
  sign_of p = Some false \/ p = S754_nan.
Proof.
  intros Sq Hn. unfold float_mul_int, float_of_int, binary_normalize.
  destruct n as [|m|m]; try lia.
  - simpl. intros [= <-]. destruct q as [s|s| |s mq eq]; simpl in *; try discriminate;
      injection Sq as ->; auto.
  - unfold binary_round.
    destruct (shl_align m 0 _) as [mz ez].
    pose proof (binary_round_aux_sign false (Z.pos mz) ez loc_Exact ltac:(lia)) as Hs.
    destruct (binary_round_aux _ _ _ _ _ _) as [s|s| |s mf ef] eqn:E; try discriminate;
      simpl in Hs; injection Hs as ->; simpl; try discriminate; intros [= <-].
    + destruct q as [s|s| |s mq eq]; simpl in *; try discriminate; injection Sq as ->; auto.
    + destruct q as [s|s| |s mq eq]; simpl in *; try discriminate; injection Sq as ->; auto.
      left. apply binary_round_aux_sign. lia.
Qed.


End FloatFacts.
Import FloatFacts.

(** ** The colour scale *)

(** The literal [0.0083333] is the correctly rounded quotient 83333 / 10^7. *)
Example lit_0_0083333_nearest : int_truediv 83333 10000000 = Ok lit_0_0083333.
Proof. reflexivity. Qed.

(** [100 / 3 = 33.333333333333336] and [3 * (100 / 3) = 100.0]. *)
Example cell_width_100_3 :
  int_truediv 100 3 = Ok (S754_finite false 4691249611844267 (-47)) /\
  int_mul_float 3 (S754_finite false 4691249611844267 (-47))
  = Ok (S754_finite false 7036874417766400 (-46)) /\
  float_of_int 100 = Ok (S754_finite false 7036874417766400 (-46)).
Proof. repeat split; reflexivity. Qed.

(** The colours of the docstring's samples, whose altitudes range over
    [1, 12]: the highest is black, the lowest nearly full green. *)
Example docstring_colors :
  calculate_color 12 1 12 = Ok (0, 0, 0) /\
  calculate_color 1 1 12 = Ok (0, 234, 0) /\
  calculate_color 6 1 12 = Ok (0, 128, 0) /\
  calculate_color (-5) (-10) 12 = Ok (0, 0, 128).
Proof. repeat split; reflexivity. Qed.

(** [int] truncates toward zero where [floor] rounds down. *)
Example int_is_not_floor :
  float_to_int (S754_finite true 3 (-1)) = Ok (-1) /\
  float_floor (S754_finite true 3 (-1)) = Ok (-2).
Proof. split; reflexivity. Qed.

Lemma scaled_channel_floor a b :
  0 <= a -> 0 < b ->
  (q <- int_truediv a b ;; p <- float_mul_int q 255 ;; float_to_int p)%res =
  (q <- int_truediv a b ;; p <- float_mul_int q 255 ;; float_floor p)%res.
Proof.
  intros Ha Hb. destruct (int_truediv a b) as [q|e] eqn:Hq; [|reflexivity].
  cbn [rbind]. pose proof (int_truediv_sign a b q Ha Hb Hq) as Sq.
  destruct (float_mul_int q 255) as [p|e] eqn:Hp; [|reflexivity].
  cbn [rbind]. destruct (float_mul_int_sign q 255 p Sq ltac:(lia) Hp) as [Sp| ->].
  - apply float_to_int_floor, Sp.
  - reflexivity.
Qed.

(** C2: for every altitude [h] and extremes [mn], [mx], [calculate_color]
    returns [(0, 0, 255 - floor((|h| / |mn|) * 255))] when [h < 0] (with
    [mn < 0]) and [(0, 255 - floor((h / mx) * 255), 0)] when [h >= 0] (with
    [mx > 0]): the truncation [int] of the code and the [floor] of the
    specification agree, because the scaled quotient is never negative; both
    sides raise [OverflowError] together when the quotient is beyond the
    binary64 range. *)
Theorem calculate_color_matches_spec (h mn mx : Z) :
  (h < 0 -> mn < 0) -> (0 <= h -> 0 < mx) ->
  calculate_color h mn mx = color_spec h mn mx.
Proof.
  intros Hneg Hpos. unfold calculate_color, color_spec.
  destruct (Z.ltb_spec h 0) as [Hh|Hh].
  - pose proof (scaled_channel_floor (Z.abs h) (Z.abs mn) ltac:(lia) ltac:(lia)) as E.
    destruct (int_truediv (Z.abs h) (Z.abs mn)) as [q|e]; [|reflexivity].
    cbn [rbind] in *. destruct (float_mul_int q 255) as [p|e]; [|reflexivity].
    cbn [rbind] in *. rewrite E. reflexivity.
  - pose proof (scaled_channel_floor h mx Hh ltac:(lia)) as E.
    destruct (int_truediv h mx) as [q|e]; [|reflexivity].
    cbn [rbind] in *. destruct (float_mul_int q 255) as [p|e]; [|reflexivity].
    cbn [rbind] in *. rewrite E. reflexivity.
Qed.

(** The scaled channel: [255 - int((a / b) * 255)] lies in [0, 255] when
    [0 <= a <= b] and [b] is not zero. *)
Lemma scaled_channel_range a b :
  0 <= a <= b -> 0 < b ->
  exists k, (q <- int_truediv a b ;; p <- float_mul_int q 255 ;; float_to_int p)%res = Ok k
            /\ 0 <= k <= 255.
Proof.
  intros Ha Hb.
  destruct (int_truediv_le a b 1) as (q & Hq & Lq & Sq); try lia.
  rewrite Hq. cbn [rbind]. unfold float_mul_int.
  destruct (float_of_int_le 255) as (f & Hf & Lf & Sf); [lia|].
  rewrite Hf. cbn [rbind].
  destruct (SFmul_le q f 1 255 Lq Lf Sq Sf) as [Lp Sp]; try lia.
  destruct (float_to_int_le _ (1 * 255) ltac:(lia) Lp Sp) as (t & Ht & Hr).
  exists t. split; [exact Ht|lia].
Qed.

Lemma calculate_color_defined (h mn mx : Z) :
  mn <= h <= mx -> (h < 0 -> mn <> 0) -> (0 <= h -> mx <> 0) ->
  exists r g b, calculate_color h mn mx = Ok (r, g, b) /\ r = 0 /\
    (h < 0 -> g = 0 /\ 0 <= b <= 255) /\
    (0 <= h -> b = 0 /\ 0 <= g <= 255).
Proof.
  intros Hr Hn Hp. unfold calculate_color.
  destruct (Z.ltb_spec h 0) as [Hh|Hh].
  - destruct (scaled_channel_range (Z.abs h) (Z.abs mn)) as (k & Hk & Hkr); try lia.
    exists 0, 0, (255 - k).
    destruct (int_truediv (Z.abs h) (Z.abs mn)) as [q|e]; [|discriminate].
    cbn [rbind] in *. destruct (float_mul_int q 255) as [p|e]; [|discriminate].
    cbn [rbind] in *. rewrite Hk. cbn [rbind]. repeat split; lia.
  - destruct (scaled_channel_range h mx) as (k & Hk & Hkr); try lia.
    exists 0, (255 - k), 0.
    destruct (int_truediv h mx) as [q|e]; [|discriminate].
    cbn [rbind] in *. destruct (float_mul_int q 255) as [p|e]; [|discriminate].
    cbn [rbind] in *. rewrite Hk. cbn [rbind]. repeat split; lia.
Qed.

(** ** The grid *)

Lemma paint_cell_cell hs C wide high i j im :
  paint_cell hs C wide high i j im =
  (c <- cell hs C wide high i j ;; Ok (add_rects im [c]))%res.
Proof.
  unfold paint_cell, cell.
  destruct (cell_box i j wide high); [|reflexivity]. cbn [rbind].
  destruct (hs !! _); [|reflexivity]. cbn [rbind].
  destruct (list_min hs); [|reflexivity]. cbn [rbind].
  destruct (list_max hs); [|reflexivity]. cbn [rbind].
  destruct (calculate_color _ _ _); reflexivity.
Qed.

Lemma add_rects_nil im : add_rects im [] = im.
Proof. destruct im; unfold add_rects; simpl. by rewrite app_nil_r. Qed.

Lemma add_rects_app im l1 l2 : add_rects (add_rects im l1) l2 = add_rects im (l1 ++ l2).
Proof. unfold add_rects; simpl. by rewrite app_assoc. Qed.

Lemma for_each_add_rects {B} (l : list B) (body : B -> image -> result image)
    (G : B -> list (box * color)) im :
  (forall x im', x ∈ l -> body x im' = Ok (add_rects im' (G x))) ->
  for_each l body im = Ok (add_rects im (flat_map G l)).
Proof.
  revert im. induction l as [|x l IH]; intros im Hb; simpl.
  - by rewrite add_rects_nil.
  - rewrite Hb by left. cbn [rbind]. rewrite IH.
    + by rewrite add_rects_app.
    + intros y im' Hy. apply Hb. by right.
Qed.

Lemma paint_cells_ok hs C R wide high im (g : nat -> nat -> box * color) :
  (forall i j, (i < C)%nat -> (j < R)%nat -> cell hs C wide high i j = Ok (g i j)) ->
  paint_cells hs C R wide high im =
  Ok (add_rects im (flat_map (fun i => map (g i) (seq 0 R)) (seq 0 C))).
Proof.
  intros Hc. unfold paint_cells.
  apply for_each_add_rects. intros i im' Hi.
  apply elem_of_seq in Hi.
  rewrite (for_each_add_rects _ _ (fun j => [g i j])).
  - assert (flat_map (fun j => [g i j]) (seq 0 R) = map (g i) (seq 0 R)) as ->; [|done].
    induction (seq 0 R); simpl; congruence.
  - intros j im'' Hj. apply elem_of_seq in Hj.
    rewrite paint_cell_cell, Hc by lia. reflexivity.
Qed.

Lemma lookup_grid {A} (f : nat -> nat -> A) (C R i j : nat) :
  (i < C)%nat -> (j < R)%nat ->
  flat_map (fun i => map (f i) (seq 0 R)) (seq 0 C) !! (i * R + j)%nat = Some (f i j).
Proof.
  intros Hi Hj.
  assert (forall s, flat_map (fun i => map (f i) (seq 0 R)) (seq s C) !! (i * R + j)%nat
                    = Some (f (s + i)%nat j)) as H; [|apply (H 0%nat)].
  revert i Hi. induction C as [|C IH]; intros i Hi s; [lia|].
  cbn [seq flat_map]. destruct i as [|i].
  - rewrite lookup_app_l by (rewrite length_map, length_seq; lia).
    rewrite list_lookup_fmap, lookup_seq_lt by lia. simpl. do 2 f_equal; lia.
  - rewrite lookup_app_r by (rewrite length_map, length_seq; lia).
    rewrite length_map, length_seq.
    replace (S i * R + j - R)%nat with (i * R + j)%nat by lia.
    rewrite IH by lia. do 2 f_equal. lia.
Qed.

Lemma length_grid {A} (f : nat -> nat -> A) (C R : nat) :
  length (flat_map (fun i => map (f i) (seq 0 R)) (seq 0 C)) = (C * R)%nat.
Proof.
  generalize 0%nat at 2. induction C as [|C IH]; intros s; simpl; [reflexivity|].
  rewrite length_app, length_map, length_seq, IH. lia.
Qed.

Lemma distinct_length_le l : (length (distinct l) <= length l)%nat.
Proof. induction l as [|x l IH]; simpl; [lia|]. destruct (existsb _ _); simpl; lia. Qed.

Lemma distinct_nonempty l : l <> [] -> distinct l <> [].
Proof.
  induction l as [|x l IH]; [congruence|]. intros _. simpl.
  destruct (existsb (py_eqb x) l) eqn:E; [|discriminate].
  apply IH. intros ->. discriminate.
Qed.

Lemma fold_left_min_le l : forall x y, y = x \/ In y l -> fold_left Z.min l x <= y.
Proof.
  induction l as [|z l IH]; intros x y [->|Hy]; simpl in *; try lia; try contradiction.
  - etransitivity; [apply IH; left; reflexivity|lia].
  - destruct Hy as [->|Hy].
    + etransitivity; [apply IH; left; reflexivity|lia].
    + apply IH. by right.
Qed.

Lemma fold_left_max_ge l : forall x y, y = x \/ In y l -> y <= fold_left Z.max l x.
Proof.
  induction l as [|z l IH]; intros x y [->|Hy]; simpl in *; try lia; try contradiction.
  - etransitivity; [|apply IH; left; reflexivity]. lia.
  - destruct Hy as [->|Hy].
    + etransitivity; [|apply IH; left; reflexivity]. lia.
    + apply IH. by right.
Qed.

Lemma list_min_spec l :
  l <> [] -> exists lo, list_min l = Ok lo /\ forall x, In x l -> lo <= x.
Proof.
  destruct l as [|z l]; [congruence|]. intros _. eexists; split; [reflexivity|].
  intros x [->|Hx]; apply fold_left_min_le; auto.
Qed.

Lemma list_max_spec l :
  l <> [] -> exists hi, list_max l = Ok hi /\ forall x, In x l -> x <= hi.
Proof.
  destruct l as [|z l]; [congruence|]. intros _. eexists; split; [reflexivity|].
  intros x [->|Hx]; apply fold_left_max_ge; auto.
Qed.

Lemma int_mul_float_ok n x :
  0 <= n < 2 ^ 52 -> exists y, int_mul_float n x = Ok y.
Proof.
  intros Hn. unfold int_mul_float.
  destruct (float_of_int_le n Hn) as (f & -> & _). eexists; reflexivity.
Qed.

Lemma cell_box_ok i j wide high :
  Z.of_nat i + 1 < 2 ^ 52 -> Z.of_nat j + 1 < 2 ^ 52 ->
  exists xy, cell_box i j wide high = Ok xy.
Proof.
  intros Hi Hj. unfold cell_box.
  destruct (int_mul_float_ok (Z.of_nat i) wide) as [x1 ->]; [lia|].
  destruct (int_mul_float_ok (Z.of_nat j) high) as [y1 ->]; [lia|].
  destruct (int_mul_float_ok (Z.of_nat i + 1) wide) as [x2 ->]; [lia|].
  destruct (int_mul_float_ok (Z.of_nat j + 1) high) as [y2 ->]; [lia|].
  eexists; reflexivity.
Qed.

Section Grid.
Context {X : Externals}.

(** [Image.new] succeeds on a size that is not negative, below 2^31 a side,
    and that the library can allocate. *)
Lemma Image_new_ok (width height : Z) (background : color) :
  0 <= width < 2 ^ 31 -> 0 <= height < 2 ^ 31 -> allocates width height = true ->
  Image_new (width, height) background
  = Ok {| im_size := (width, height); im_background := background; im_rects := [] |}.
Proof.
  intros Hw Hh Ha. unfold Image_new. cbn [fst snd].
  replace (width <? 0) with false by (symmetry; apply Z.ltb_ge; lia).
  replace (height <? 0) with false by (symmetry; apply Z.ltb_ge; lia).
  replace (2 ^ 31 <=? width) with false by (symmetry; apply Z.leb_gt; lia).
  replace (2 ^ 31 <=? height) with false by (symmetry; apply Z.leb_gt; lia).
  cbn [orb]. rewrite Ha. reflexivity.
Qed.

(** [im.save] succeeds on an image that is not empty, under a file name
    whose extension the library knows. *)
Lemma Image_save_ok (im : image) (filename : string) (w : world) :
  known_extension filename = true ->
  0 < fst (im_size im) -> 0 < snd (im_size im) ->
  Image_save im filename w
  = (Ok tt, set_files w (<[filename := ImageFile im]> (files w))).
Proof.
  intros Hext Hw Hh. unfold Image_save. rewrite Hext.
  replace (fst (im_size im) =? 0) with false by (symmetry; apply Z.eqb_neq; lia).
  replace (snd (im_size im) =? 0) with false by (symmetry; apply Z.eqb_neq; lia).
  reflexivity.
Qed.

End Grid.

(** ** Strides *)

Lemma py_int_max_1 q t :
  float_to_int q = Ok t -> py_int (py_max (PInt 1) (PFloat q)) = Ok (Z.max 1 t).
Proof.
  destruct q as [s|s| |s m e]; simpl; try discriminate; intros [= <-].
  - reflexivity.
  - unfold py_max, py_gt, cmp_int_float.
    destruct (Z.leb_spec 0 e) as [He|He].
    + rewrite Z.shiftl_mul_pow2 by lia.
      assert (0 < Z.pos m * 2 ^ e) as Hx by (apply Z.mul_pos_pos; [lia|apply Z.pow_pos_nonneg; lia]).
      destruct s; cbn [cond_Zopp]; rewrite ?Z.mul_opp_l.
      * destruct (1 ?= - (Z.pos m * 2 ^ e)) eqn:E; cbn [py_int float_to_int cond_Zopp];
          try (f_equal; lia).
        rewrite Z.compare_lt_iff in E. exfalso; nia.
      * destruct (1 ?= Z.pos m * 2 ^ e) eqn:E; cbn [py_int float_to_int cond_Zopp].
        -- rewrite Z.compare_eq_iff in E. f_equal. lia.
        -- rewrite Z.shiftl_mul_pow2 by lia. rewrite Z.compare_lt_iff in E. f_equal. lia.
        -- rewrite Z.compare_gt_iff in E. f_equal. lia.
    + rewrite Z.shiftl_div_pow2 by lia.
      assert (0 < 2 ^ (- e)) by (apply Z.pow_pos_nonneg; lia).
      pose proof (Z.div_pos (Z.pos m) (2 ^ (- e)) ltac:(lia) ltac:(lia)) as Hq.
      rewrite Z.mul_1_l.
      destruct s; cbn [cond_Zopp].
      * destruct (2 ^ (- e) ?= - Z.pos m) eqn:E; cbn [py_int float_to_int cond_Zopp];
          try (f_equal; lia).
        rewrite Z.compare_lt_iff in E. exfalso; nia.
      * destruct (2 ^ (- e) ?= Z.pos m) eqn:E; cbn [py_int float_to_int cond_Zopp].
        -- rewrite Z.compare_eq_iff in E. rewrite <- E, Z.div_same by lia. reflexivity.
        -- rewrite Z.shiftl_div_pow2 by lia. rewrite Z.compare_lt_iff in E. f_equal.
           assert (1 <= Z.pos m / 2 ^ (- e)); [|lia].
           apply Z.div_le_lower_bound; lia.
        -- rewrite Z.compare_gt_iff in E. rewrite Z.div_small by lia. reflexivity.
Qed.

(** C6, as amended: a non-zero stride passes through unchanged, and a stride
    given as 0 becomes [max(1, t)], where [t] is the quotient
    [(max - min) / 0.0083333 / image_height] truncated toward zero (not
    rounded to nearest); latitude and longitude both divide by
    [image_height]. *)
Theorem effective_strides_truncate
    (min_latitude max_latitude latitude_stride
     min_longitude max_longitude longitude_stride : pynum)
    (image_height : Z) (ls gs : pynum) :
  stride_rule latitude_stride min_latitude max_latitude image_height ls ->
  stride_rule longitude_stride min_longitude max_longitude image_height gs ->
  effective_strides (min_latitude, max_latitude, latitude_stride,
                     min_longitude, max_longitude, longitude_stride) image_height
  = Ok (ls, gs).
Proof.
  assert (forall stride lo hi r, stride_rule stride lo hi image_height r ->
            resolve_stride stride lo hi image_height = Ok r) as Hr.
  { intros stride lo hi r [[Hz ->]|[Hz (q & t & Hq & Ht & ->)]]; unfold resolve_stride; rewrite Hz.
    - reflexivity.
    - unfold auto_stride. rewrite Hq. cbn [rbind]. rewrite (py_int_max_1 q t Ht). reflexivity. }
  intros Hl Hg. unfold effective_strides. rewrite (Hr _ _ _ _ Hl), (Hr _ _ _ _ Hg). reflexivity.
Qed.

(** C6 fails as stated: for the latitudes 0 to 1 and an image 70 pixels
    high the quotient is about 1.714; the code yields the stride 1, and
    [max(1, round(...))] would be 2. *)
Lemma stride_not_rounded :
  resolve_stride (PInt 0) (PInt 0) (PInt 1) 70 = Ok (PInt 1) /\
  stride_spec (PInt 0) (PInt 1) 70 = Ok (PInt 2).
Proof. split; vm_compute; reflexivity. Qed.

Lemma effective_strides_truncate_witness :
  effective_strides (PInt 0, PInt 1, PInt 0, PInt 22, PInt 29, PInt 2) 70
  = Ok (PInt 1, PInt 2).
Proof.
  apply effective_strides_truncate.
  - right. split; [reflexivity|].
    exists (S754_finite false 7720487386013252 (-52)), 1.
    repeat split; vm_compute; reflexivity.
  - left. split; reflexivity.
Defined.

(** ** The cache *)

Section IO.
Context {X : Externals}.

Lemma writes_only_ret {A} fn (a : A) : writes_only fn (ret a).
Proof. intros w; simpl; auto. Qed.

Lemma writes_only_lift {A} fn (r : result A) : writes_only fn (lift r).
Proof. intros w; simpl; auto. Qed.

Lemma writes_only_bind {A B} fn (m : io A) (k : A -> io B) :
  writes_only fn m -> (forall a, writes_only fn (k a)) -> writes_only fn (bind m k).
Proof.
  intros Hm Hk w. unfold bind. specialize (Hm w).
  destruct (m w) as [[a|e] w1]; cbn [snd] in *; [|exact Hm].
  specialize (Hk a w1). destruct Hm as (H1 & H2 & H3 & H4), Hk as (K1 & K2 & K3 & K4).
  repeat split.
  - congruence.
  - congruence.
  - intros x Hne. rewrite K3, H3; auto.
  - intros x Hs. auto.
Qed.

Lemma writes_only_print fn s : writes_only fn (print s).
Proof. intros w; simpl; auto. Qed.

Lemma writes_only_read fn name : writes_only fn (read_json_from_file name).
Proof.
  intros w. unfold read_json_from_file.
  destruct (files w !! name) as [[s|im]|]; [destruct (json_loads s)| |]; simpl; auto.
Qed.

Lemma writes_only_save im fn : writes_only fn (Image_save im fn).
Proof.
  intros w. unfold Image_save.
  destruct (known_extension fn); [destruct (_ || _)|]; simpl; auto.
  repeat split; auto.
  - intros k Hne. by rewrite lookup_insert_ne.
  - intros k Hs. destruct (decide (fn = k)) as [->|Hne].
    + rewrite lookup_insert_eq. eauto.
    + by rewrite lookup_insert_ne.
Qed.

Lemma writes_only_except fn (m : io bool) :
  writes_only fn m -> writes_only fn (except_ValueError m).
Proof.
  intros Hm w. unfold except_ValueError. specialize (Hm w).
  destruct (m w) as [[b|[]] w1]; exact Hm.
Qed.

Lemma writes_only_generate_map samples width height fn :
  writes_only fn (generate_map samples width height fn).
Proof.
  unfold generate_map. apply writes_only_except.
  repeat (apply writes_only_bind; [first [apply writes_only_lift|apply writes_only_save]|intros ?]).
  apply writes_only_ret.
Qed.

Lemma writes_only_render_cached cache iw ih fn :
  writes_only fn (render_cached cache iw ih fn).
Proof.
  unfold render_cached.
  apply writes_only_bind; [apply writes_only_read|intros data].
  apply writes_only_bind; [apply writes_only_lift|intros topo].
  apply writes_only_bind; [apply writes_only_lift|intros n].
  apply writes_only_bind; [apply writes_only_print|intros _].
  apply writes_only_bind; [|intros _; apply writes_only_ret].
  unfold generate_map_json. destruct (as_samples topo).
  - apply writes_only_generate_map.
  - apply writes_only_lift.
Qed.

(** A call when the cache file is absent: one request, then the file is
    written and rendered from. *)
Lemma call_without_cache (a b c d e f : pynum) iw ih fn w ls gs body :
  effective_strides (a, b, c, d, e, f) ih = Ok (ls, gs) ->
  files w !! cache_name a b ls d e gs = None ->
  remote w (query_url a b ls d e gs) = Some body ->
  generate_map_with_coordinates (a, b, c, d, e, f) iw ih fn w =
  render_cached (cache_name a b ls d e gs) iw ih fn
    {| files := <[cache_name a b ls d e gs := TextFile body]> (files w);
       remote := remote w;
       requests := requests w ++ [query_url a b ls d e gs];
       stdout := stdout w |}.
Proof.
  intros Hs Hf Hr.
  unfold generate_map_with_coordinates, bind at 1, lift at 1. rewrite Hs.
  unfold bind at 1, path_exists at 1. rewrite Hf.
  rewrite bool_decide_eq_false_2 by (intros [? ?]; discriminate). cbn [negb].
  unfold bind at 1, bind at 1, read_json_from_web, read_web. cbn [remote]. rewrite Hr.
  reflexivity.
Qed.

(** A call when the cache file is present: no request. *)
Lemma call_with_cache (a b c d e f : pynum) iw ih fn w ls gs :
  effective_strides (a, b, c, d, e, f) ih = Ok (ls, gs) ->
  is_Some (files w !! cache_name a b ls d e gs) ->
  generate_map_with_coordinates (a, b, c, d, e, f) iw ih fn w =
  render_cached (cache_name a b ls d e gs) iw ih fn w.
Proof.
  intros Hs Hf.
  unfold generate_map_with_coordinates, bind at 1, lift at 1. rewrite Hs.
  unfold bind at 1, path_exists at 1.
  rewrite bool_decide_eq_true_2 by exact Hf. cbn [negb].
  reflexivity.
Qed.



End IO.

(** ** The claims about the colour range, failures and decoding *)

Import Example.

(** C5: for every altitude [h] with [mn <= h <= mx] and a non-zero divisor
    ([mn] when [h < 0], [mx] otherwise), [calculate_color] returns a colour
    whose unused channels are exactly 0 (red and green for [h < 0], red and
    blue for [h >= 0]) and whose scaled channel lies in [0, 255]. *)
Theorem calculate_color_range (h mn mx : Z) :
  mn <= h <= mx -> (h < 0 -> mn <> 0) -> (0 <= h -> mx <> 0) ->
  exists r g b, calculate_color h mn mx = Ok (r, g, b) /\ r = 0 /\
    (h < 0 -> g = 0 /\ 0 <= b <= 255) /\
    (0 <= h -> b = 0 /\ 0 <= g <= 255).
Proof. apply calculate_color_defined. Qed.

Lemma calculate_color_range_witness :
  exists r g b, calculate_color 6 1 12 = Ok (r, g, b) /\ r = 0 /\
    (6 < 0 -> g = 0 /\ 0 <= b <= 255) /\
    (0 <= 6 -> b = 0 /\ 0 <= g <= 255).
Proof. apply (calculate_color_range 6 1 12); lia. Defined.

Lemma calculate_color_matches_spec_witness :
  calculate_color (-5) (-10) 12 = color_spec (-5) (-10) 12.
Proof. apply (calculate_color_matches_spec (-5) (-10) 12); lia. Defined.

(** C3 fails on the code: there is no guard. With [max_height = 0] every
    altitude [>= 0] raises [ZeroDivisionError], and so does every negative
    altitude with [min_height = 0]. *)
Theorem calculate_color_divides_by_zero :
  (forall h mn, calculate_color (Z.abs h) mn 0 = Raise ZeroDivisionError) /\
  (forall p mx, calculate_color (Zneg p) 0 mx = Raise ZeroDivisionError).
Proof.
  split.
  - intros h mn. unfold calculate_color.
    destruct (Z.ltb_spec (Z.abs h) 0); [lia|reflexivity].
  - intros p mx. reflexivity.
Qed.

Section Failures.
Context {X : Externals}.

(** C1 fails on the code for a valid grid whose highest altitude is 0: the
    first cell at altitude 0 divides by zero, [generate_map] raises
    [ZeroDivisionError] and nothing is saved. Shown for a 1 x 1 grid and for
    a 2 x 2 grid at or below sea level. *)
Theorem generate_map_sea_level_grid (filename : string) (w : world) :
  generate_map [at_ 10 10 0] 100 100 filename w = (Raise ZeroDivisionError, w) /\
  generate_map [at_ 10 10 0; at_ 10 12 (-3); at_ 12 10 (-1); at_ 12 12 0]
    100 100 filename w
  = (Raise ZeroDivisionError, w).
Proof. split; reflexivity. Qed.

(** C4 fails on the code: an empty sample list raises [ZeroDivisionError],
    eleven samples on a 4 x 3 grid raise [IndexError] (neither is caught by
    [except ValueError]), and thirteen samples on a 4 x 3 grid are rendered
    as if they were twelve, returning [True] whenever the file can be saved.
    No file is written in the two raising cases. *)
Theorem generate_map_unhandled_errors (width height : Z) (filename : string) (w : world) :
  generate_map [] width height filename w = (Raise ZeroDivisionError, w) /\
  generate_map (firstn 11 docstring_samples) 100 100 filename w = (Raise IndexError, w) /\
  fst (generate_map (docstring_samples ++ [at_ 16 14 3]) 100 100 filename w)
  = Ok (known_extension filename).
Proof.
  split; [|split].
  - unfold generate_map, except_ValueError, bind, lift. cbn [map distinct length].
    unfold int_truediv. reflexivity.
  - vm_compute. reflexivity.
  - unfold generate_map, except_ValueError, bind, lift, ret, Image_save.
    destruct (known_extension filename); vm_compute; reflexivity.
Qed.

Lemma bind_never_false {A} (m : io A) (k : A -> io bool) :
  (forall a w, fst (k a w) <> Ok false) -> forall w, fst (bind m k w) <> Ok false.
Proof.
  intros Hk w. unfold bind. destruct (m w) as [[a|e] w']; [apply Hk|discriminate].
Qed.

(** The entry point returns [True] or raises; it never returns [False]. *)
Lemma generate_map_with_coordinates_never_false p iw ih fn w :
  fst (generate_map_with_coordinates p iw ih fn w) <> Ok false.
Proof.
  destruct p as [[[[[a b] c] d] e] f]. unfold generate_map_with_coordinates.
  apply bind_never_false. intros [ls gs] w1.
  repeat (apply bind_never_false; intros ? ?).
  discriminate.
Qed.

(** What [read_json_from_file] returns for a text file: the parsed document
    serialised again, not the text of the file. *)
Lemma read_json_from_file_dumps (name s : string) (v : json) (w : world) :
  files w !! name = Some (TextFile s) ->
  json_loads s = Some v ->
  read_json_from_file name w = (Ok (Some (json_dumps v)), w).
Proof. intros Hf Hs. unfold read_json_from_file. rewrite Hf, Hs. reflexivity. Qed.

(** A file that is not valid JSON cannot be read back at all. *)
Lemma read_json_from_file_invalid (name s : string) (w : world) :
  files w !! name = Some (TextFile s) ->
  json_loads s = None ->
  read_json_from_file name w = (Raise ValueError, w).
Proof. intros Hf Hs. unfold read_json_from_file. rewrite Hf, Hs. reflexivity. Qed.

(** C10: for every payload that decodes to an object with a member [table]
    that is an object with a member [rows], [get_topo_data_from_string]
    returns the value of [rows] as it is, whatever it is: no row is checked
    to be a [[lat, lng, altitude]] triple, or a list at all. *)
Theorem get_topo_data_unvalidated (s : string) (o table : list (string * json))
    (rows : json) :
  json_loads s = Some (JObj o) ->
  obj_get o "table" = Some (JObj table) ->
  obj_get table "rows" = Some rows ->
  get_topo_data_from_string (Some s) = Ok rows.
Proof.
  intros Hs Ht Hr. unfold get_topo_data_from_string. rewrite Hs.
  cbn [subscript]. rewrite Ht. cbn [rbind subscript]. rewrite Hr. reflexivity.
Qed.

End Failures.

Lemma get_topo_data_unvalidated_witness :
  get_topo_data_from_string (X := example_externals) (Some (plain_dumps odd_doc))
  = Ok odd_rows.
Proof.
  apply (get_topo_data_unvalidated (X := example_externals) (plain_dumps odd_doc)
           [("table", JObj [("rows", odd_rows)])]%string
           [("rows", odd_rows)]%string odd_rows);
    reflexivity.
Defined.

(** C8 fails on the code: [generate_map_with_coordinates] discards the result
    of [generate_map] and never returns [False]. With the example's cache
    file in place and an image width of -1, [generate_map] on the cached rows
    returns [False] and the entry point returns [True]. *)
Theorem render_failure_not_reported :
  (forall (X : Externals) p iw ih fn w,
     fst (generate_map_with_coordinates p iw ih fn w) <> Ok false) /\
  (exists samples, as_samples example_rows = Some samples /\
     fst (generate_map (X := example_externals) samples (-1) 100 "map.png" cached_world)
     = Ok false) /\
  fst (generate_map_with_coordinates (X := example_externals) example_params (-1) 100
         "map.png" cached_world)
  = Ok true.
Proof.
  split; [|split].
  - intros. apply generate_map_with_coordinates_never_false.
  - eexists. split; [reflexivity|]. vm_compute. reflexivity.
  - vm_compute. reflexivity.
Qed.

(** C9 fails on the code: [read_json_from_file] parses the file and
    serialises it again. The cache file holds the payload as received,
    without spaces; what is read back has [json.dumps]'s separators and
    differs from it. An absent file does yield [None]. *)
Theorem read_json_from_file_reserialises :
  files cached_world !! example_cache = Some (TextFile compact_text) /\
  fst (read_json_from_file (X := example_externals) example_cache cached_world)
  = Ok (Some (plain_dumps example_doc)) /\
  plain_dumps example_doc <> compact_text /\
  fst (read_json_from_file (X := example_externals) example_cache fresh_world) = Ok None.
Proof.
  split; [|split; [|split]]; try (vm_compute; reflexivity).
  vm_compute. discriminate.
Qed.



(** * Further properties of the code *)

(** ** The colour scale: end points and errors *)

(** [a / a] is exactly [1.0]. *)
Lemma int_truediv_same a : 0 < a -> int_truediv a a = Ok (S754_finite false 4503599627370496 (-52)).
Proof.
  intros Ha. unfold int_truediv. destruct (Z.eqb_spec a 0); [lia|].
  destruct a as [|a|a]; try lia. cbn [raw SFdiv]. unfold SFdiv_core_binary.
  replace (Zdigits2 (Z.pos a) + 0 - (Zdigits2 (Z.pos a) + 0)) with 0 by lia.
  change (Z.min (fexp prec emax 0) (0 - 0)) with (-53).
  change (0 - 0 - -53) with 53. cbv iota beta.
  rewrite Z.shiftl_mul_pow2 by lia.
  assert (Z.div_eucl (Z.pos a * 2 ^ 53) (Z.pos a) = (2 ^ 53, 0)) as ->.
  { pose proof (Z_div_mod (Z.pos a * 2 ^ 53) (Z.pos a) ltac:(lia)) as H.
    destruct (Z.div_eucl _ _) as [q r]. destruct H as [H1 H2].
    assert (r = 0 /\ q = 2 ^ 53) as [-> ->]; [|reflexivity].
    assert (Z.pos a * (2 ^ 53 - q) = r) as E by lia.
    assert (2 ^ 53 - q = 0); [|lia]. nia. }
  rewrite new_location_exact. reflexivity.
Qed.

(** [0 / b] is a zero. *)
Lemma int_truediv_zero b : b <> 0 -> exists s, int_truediv 0 b = Ok (S754_zero s).
Proof.
  intros Hb. unfold int_truediv. destruct (Z.eqb_spec b 0); [lia|].
  destruct b; try lia; simpl; eauto.
Qed.

(** X2: the two ends of each half of the scale are black, and sea level is
    full green: [calculate_color] returns [(0, 0, 0)] for the highest
    altitude when it is positive and for the lowest altitude when it is
    negative, and [(0, 255, 0)] for altitude 0 whenever the highest altitude
    is not 0. *)
Theorem calculate_color_endpoints (mn mx : Z) :
  (0 < mx -> calculate_color mx mn mx = Ok (0, 0, 0)) /\
  (mn < 0 -> calculate_color mn mn mx = Ok (0, 0, 0)) /\
  (mx <> 0 -> calculate_color 0 mn mx = Ok (0, 255, 0)).
Proof.
  split; [|split].
  - intros H. unfold calculate_color. destruct (Z.ltb_spec mx 0); [lia|].
    rewrite int_truediv_same by lia. reflexivity.
  - intros H. unfold calculate_color. destruct (Z.ltb_spec mn 0); [|lia].
    rewrite int_truediv_same by lia. reflexivity.
  - intros H. unfold calculate_color. cbn [Z.ltb Z.compare].
    destruct (int_truediv_zero mx H) as [s ->]. destruct s; reflexivity.
Qed.

(** The quotient of two integers is a zero or a finite float. *)
Lemma int_truediv_finite a b q :
  int_truediv a b = Ok q ->
  match q with S754_zero _ | S754_finite _ _ _ => True | _ => False end.
Proof.
  unfold int_truediv. destruct (Z.eqb_spec b 0) as [|Hb]; [discriminate|].
  destruct (SFdiv prec emax (raw a) (raw b)) as [s|s| |s m e] eqn:E; try discriminate;
    intros [= <-]; auto.
  exfalso. destruct a as [|a|a], b as [|b|b]; cbn [raw SFdiv] in E; try discriminate;
    try lia.
  all: destruct (SFdiv_core_binary prec emax _ 0 _ 0) as [[mz ez] lz] eqn:C;
    assert (0 <= mz) as Hmz;
    [ unfold SFdiv_core_binary in C;
      destruct (Z.div_eucl _ (Z.pos b)) as [q' r'] eqn:Hqr in C;
      injection C as <- _ _;
      match type of Hqr with Z.div_eucl ?x _ = _ =>
        pose proof (Z_div_mod x (Z.pos b) ltac:(lia)) as Hdm; rewrite Hqr in Hdm;
        assert (0 <= x) as Hx end;
      [ destruct (_ - _ - _); try lia; rewrite Z.shiftl_mul_pow2 by lia;
        apply Z.mul_nonneg_nonneg; [lia|apply Z.pow_nonneg; lia]
      | nia ]
    | match type of E with binary_round_aux _ _ ?s _ _ _ = _ =>
        pose proof (binary_round_aux_sign s mz ez lz Hmz) as Hs end;
      rewrite E in Hs; discriminate ].
Qed.

(** The scaled channel fails in two ways only: the divisor is 0, or the
    quotient is beyond the binary64 range. *)
Lemma scaled_channel_errors a d e :
  (q <- int_truediv a d ;; p <- float_mul_int q 255 ;; float_to_int p)%res = Raise e ->
  (d = 0 /\ e = ZeroDivisionError) \/ (d <> 0 /\ e = OverflowError).
Proof.
  destruct (int_truediv a d) as [q|e'] eqn:Hq; cbn [rbind].
  - pose proof (int_truediv_finite a d q Hq) as Hfin.
    assert (d <> 0) as Hd.
    { intros ->. unfold int_truediv in Hq. discriminate. }
    unfold float_mul_int.
    change (float_of_int 255) with (@Ok spec_float (S754_finite false 8972014882652160 (-45))).
    cbn [rbind].
    destruct q as [s|s| |s m ex]; try contradiction.
    + simpl. discriminate.
    + cbn [SFmul].
      pose proof (binary_round_aux_sign (xorb s false) (Z.pos (m * 8972014882652160))
                    (ex + -45) loc_Exact ltac:(lia)) as Hs.
      destruct (binary_round_aux _ _ _ _ _ _); simpl; try discriminate.
      intros [= <-]. auto.
  - intros [= <-]. unfold int_truediv in Hq.
    destruct (Z.eqb_spec d 0) as [->|Hd].
    + injection Hq as <-. auto.
    + destruct (SFdiv _ _ _ _); try discriminate. injection Hq as <-. auto.
Qed.

Lemma calculate_color_raises (h mn mx : Z) (e : exn) :
  calculate_color h mn mx = Raise e ->
  (e = ZeroDivisionError /\ ((h < 0 /\ mn = 0) \/ (0 <= h /\ mx = 0))) \/
  e = OverflowError.
Proof.
  assert (forall a d (f : Z -> color),
            (q <- int_truediv a d ;; p <- float_mul_int q 255 ;;
             k <- float_to_int p ;; Ok (f k))%res = Raise e ->
            (q <- int_truediv a d ;; p <- float_mul_int q 255 ;; float_to_int p)%res
            = Raise e) as Hchain.
  { intros a d f.
    destruct (int_truediv a d) as [q|]; cbn [rbind]; [|intros [= ->]; reflexivity].
    destruct (float_mul_int q 255) as [p|]; cbn [rbind]; [|intros [= ->]; reflexivity].
    destruct (float_to_int p); cbn [rbind]; [discriminate|intros [= ->]; reflexivity]. }
  unfold calculate_color. destruct (Z.ltb_spec h 0) as [Hh|Hh]; intros E.
  - apply Hchain with (f := fun k => (0, 0, 255 - k)) in E.
    apply scaled_channel_errors in E. destruct E as [[H0 ->]|[_ ->]]; [left|right; auto].
    split; [reflexivity|]. left. lia.
  - apply Hchain with (f := fun k => (0, 255 - k, 0)) in E.
    apply scaled_channel_errors in E. destruct E as [[H0 ->]|[_ ->]]; [left|right; auto].
    split; [reflexivity|]. right. lia.
Qed.

Lemma calculate_color_zero_divisor (h mn mx : Z) :
  (h < 0 /\ mn = 0) \/ (0 <= h /\ mx = 0) ->
  calculate_color h mn mx = Raise ZeroDivisionError.
Proof.
  unfold calculate_color.
  intros [[H ->]|[H ->]]; destruct (Z.ltb_spec h 0); try lia; reflexivity.
Qed.

(** X3: [calculate_color] raises [ZeroDivisionError] exactly when the divisor
    of its branch is 0 (the lowest altitude for a negative altitude, the
    highest otherwise), and the only other exception it can raise is
    [OverflowError]. *)
Theorem calculate_color_errors (h mn mx : Z) :
  (calculate_color h mn mx = Raise ZeroDivisionError <->
   (h < 0 /\ mn = 0) \/ (0 <= h /\ mx = 0)) /\
  (forall e, calculate_color h mn mx = Raise e ->
             e = ZeroDivisionError \/ e = OverflowError).
Proof.
  split; [split|].
  - intros E. destruct (calculate_color_raises h mn mx _ E) as [[_ H]|H].
    + exact H.
    + discriminate.
  - apply calculate_color_zero_divisor.
  - intros e E. destruct (calculate_color_raises h mn mx e E) as [[-> _]| ->]; auto.
Qed.

(** ** [generate_map]: the ways a call can end *)















Lemma binary_round_aux_opp m e l :
  binary_round_aux prec emax true m e l = SFopp (binary_round_aux prec emax false m e l).
Proof.
  unfold binary_round_aux.
  destruct (shr_fexp prec emax m e l) as [mrs1 e1].
  destruct (shr_fexp prec emax _ e1 loc_Exact) as [mrs2 e2].
  destruct (shr_m mrs2); try reflexivity.
  destruct (_ <=? _); reflexivity.
Qed.

(** A quotient of integers of magnitude below 2^52 is computed without
    overflow, whatever the sign of the numerator. *)
Lemma int_truediv_ok a b :
  - 2 ^ 52 < a < 2 ^ 52 -> 0 < b -> exists q, int_truediv a b = Ok q.
Proof.
  intros Ha Hb. destruct (Z_le_gt_dec 0 a) as [H0|H0].
  - destruct (int_truediv_le a b a) as (q & Hq & _); try nia. eauto.
  - destruct (int_truediv_le (- a) b (- a)) as (q & Hq & Lq & _); try nia.
    unfold int_truediv in *. destruct (Z.eqb_spec b 0); [lia|].
    destruct a as [|a|a]; try lia. destruct b as [|b|b]; try lia.
    change (- Z.neg a) with (Z.pos a) in *. cbn [raw SFdiv] in *.
    destruct (SFdiv_core_binary prec emax (Z.pos a) 0 (Z.pos b) 0) as [[mz ez] lz].
    cbn [xorb] in *. rewrite binary_round_aux_opp.
    destruct (binary_round_aux prec emax false mz ez lz); try discriminate;
      simpl; eauto.
Qed.

Section Outcomes.
Context {X : Externals}.





(** X7: for a non-empty sample list and a width and height of magnitude
    below 2^52, a negative width or height makes [generate_map] return
    [False] and change nothing, whatever the samples are. *)
Theorem generate_map_negative_size (topo_data : list sample) (width height : Z)
    (filename : string) (w : world) :
  topo_data <> [] ->
  - 2 ^ 52 < width < 2 ^ 52 -> - 2 ^ 52 < height < 2 ^ 52 ->
  width < 0 \/ height < 0 ->
  generate_map topo_data width height filename w = (Ok false, w).
Proof.
  intros Hne Hw Hh Hneg.
  assert (forall f : sample -> pynum, 0 < Z.of_nat (length (distinct (map f topo_data)))) as Hpos.
  { intros f. assert (length (distinct (map f topo_data)) <> 0)%nat; [|lia].
    intros E. apply length_zero_iff_nil in E. revert E. apply distinct_nonempty.
    destruct topo_data; simpl; congruence. }
  unfold generate_map, except_ValueError, bind, lift.
  destruct (int_truediv_ok height _ Hh (Hpos latitude)) as [high ->].
  destruct (int_truediv_ok width _ Hw (Hpos longitude)) as [wide ->].
  unfold Image_new. cbn [fst snd].
  destruct (Z.ltb_spec width 0), (Z.ltb_spec height 0); cbn [orb]; try reflexivity.
  exfalso. lia.
Qed.

(** The outcome of [generate_map] on samples that fill at least the grid of
    their distinct coordinates, when no colour divides by zero. *)
Lemma generate_map_renders (topo_data : list sample) (width height : Z)
    (filename : string) (w : world) :
  let n_lat := length (distinct (map latitude topo_data)) in
  let n_lng := length (distinct (map longitude topo_data)) in
  let all_heights := map altitude topo_data in
  topo_data <> [] ->
  (n_lat * n_lng <= length topo_data)%nat ->
  Z.of_nat (length topo_data) < 2 ^ 52 ->
  0 < width < 2 ^ 31 -> 0 < height < 2 ^ 31 ->
  allocates width height = true ->
  list_max all_heights <> Ok 0 ->
  exists wide high lo hi cells,
    int_truediv width (Z.of_nat n_lng) = Ok wide /\
    int_truediv height (Z.of_nat n_lat) = Ok high /\
    list_min all_heights = Ok lo /\ list_max all_heights = Ok hi /\
    length cells = (n_lng * n_lat)%nat /\
    (forall i j, (i < n_lng)%nat -> (j < n_lat)%nat ->
       exists xy h fill,
         cell_box i j wide high = Ok xy /\
         all_heights !! (i + n_lng * j)%nat = Some h /\
         calculate_color h lo hi = Ok fill /\
         cells !! (i * n_lat + j)%nat = Some (xy, fill)) /\
    generate_map topo_data width height filename w =
      if known_extension filename then
        (Ok true,
         set_files w (<[filename := ImageFile {| im_size := (width, height);
                                                 im_background := (255, 0, 0);
                                                 im_rects := cells |}]> (files w)))
      else (Ok false, w).
Proof.
  intros n_lat n_lng all_heights Hne Hlen Hsmall Hw Hh Hfits Hmax.
  assert (n_lat <> 0 /\ n_lng <> 0)%nat as [HR HC].
  { subst n_lat n_lng. split; intros E; apply length_zero_iff_nil in E;
      revert E; apply distinct_nonempty; destruct topo_data; simpl; congruence. }
  assert (n_lat <= length topo_data /\ n_lng <= length topo_data)%nat as [HRl HCl].
  { subst n_lat n_lng. split.
    - etransitivity; [apply distinct_length_le|]. by rewrite length_map.
    - etransitivity; [apply distinct_length_le|]. by rewrite length_map. }
  destruct (int_truediv_le width (Z.of_nat n_lng) width) as (wide & Hwide & _); try nia.
  destruct (int_truediv_le height (Z.of_nat n_lat) height) as (high & Hhigh & _); try nia.
  assert (all_heights <> []) as Hhne
    by (subst all_heights; destruct topo_data; simpl; congruence).
  destruct (list_min_spec _ Hhne) as (lo & Hlo & Hlo').
  destruct (list_max_spec _ Hhne) as (hi & Hhi & Hhi').
  assert (forall i j, (i < n_lng)%nat -> (j < n_lat)%nat ->
            exists c, cell all_heights n_lng wide high i j = Ok c) as Hcell.
  { intros i j Hi Hj. unfold cell.
    destruct (cell_box_ok i j wide high) as [xy ->]; try lia. cbn [rbind].
    assert (i + n_lng * j < length all_heights)%nat as Hidx.
    { subst all_heights. rewrite length_map. nia. }
    destruct (lookup_lt_is_Some_2 _ _ Hidx) as [h Hh']. rewrite Hh'. cbn [rbind].
    rewrite Hlo, Hhi. cbn [rbind].
    assert (In h all_heights) as Hin.
    { apply list_elem_of_In. eapply list_elem_of_lookup_2; eauto. }
    destruct (calculate_color_defined h lo hi) as (r & g & b & -> & _).
    - split; auto.
    - intros Hneg E. specialize (Hlo' h Hin). lia.
    - intros _ E. apply Hmax. rewrite Hhi. by subst.
    - eexists; reflexivity. }
  set (g := fun i j => match cell all_heights n_lng wide high i j with
                       | Ok c => c
                       | Raise _ => (((S754_nan, S754_nan), (S754_nan, S754_nan)), (0, 0, 0))
                       end).
  assert (forall i j, (i < n_lng)%nat -> (j < n_lat)%nat ->
            cell all_heights n_lng wide high i j = Ok (g i j)) as Hg.
  { intros i j Hi Hj. subst g. cbv beta. destruct (Hcell i j Hi Hj) as [c ->]. reflexivity. }
  exists wide, high, lo, hi, (flat_map (fun i => map (g i) (seq 0 n_lat)) (seq 0 n_lng)).
  repeat split; auto.
  - apply length_grid.
  - intros i j Hi Hj. specialize (Hg i j Hi Hj). unfold cell in Hg.
    destruct (cell_box i j wide high) as [xy|] eqn:Hxy; [|discriminate]. cbn [rbind] in Hg.
    destruct (all_heights !! _) as [h|] eqn:Hh'; [|discriminate]. cbn [rbind] in Hg.
    rewrite Hlo, Hhi in Hg. cbn [rbind] in Hg.
    destruct (calculate_color h lo hi) as [fill|] eqn:Hfill; [|discriminate]. cbn [rbind] in Hg.
    exists xy, h, fill. repeat split; auto.
    rewrite lookup_grid by lia. congruence.
  - unfold generate_map, except_ValueError, bind, lift, ret.
    fold all_heights n_lat n_lng. rewrite Hhigh, Hwide.
    rewrite Image_new_ok by (auto; lia).
    rewrite (paint_cells_ok _ _ _ _ _ _ g Hg).
    destruct (known_extension filename) eqn:Hext.
    + rewrite Image_save_ok by (auto; cbn; lia). reflexivity.
    + unfold Image_save. rewrite Hext. reflexivity.
Qed.

(** X8: on samples that fill at least the grid of their distinct
    coordinates (no NaN among them), with a highest altitude other than 0
    and a positive width and height below 2^31 that the imaging library can
    allocate, a file name whose extension the imaging library does not know
    makes [generate_map] return [False] and write nothing: the failure of
    [im.save] is the [ValueError] the handler catches. *)
Theorem generate_map_unknown_extension (topo_data : list sample) (width height : Z)
    (filename : string) (w : world) :
  let n_lat := length (distinct (map latitude topo_data)) in
  let n_lng := length (distinct (map longitude topo_data)) in
  topo_data <> [] ->
  nan_free topo_data = true ->
  (n_lat * n_lng <= length topo_data)%nat ->
  Z.of_nat (length topo_data) < 2 ^ 52 ->
  0 < width < 2 ^ 31 -> 0 < height < 2 ^ 31 ->
  allocates width height = true ->
  list_max (map altitude topo_data) <> Ok 0 ->
  known_extension filename = false ->
  generate_map topo_data width height filename w = (Ok false, w).
Proof.
  intros n_lat n_lng Hne _ Hlen Hsmall Hw Hh Hfits Hmax Hext.
  destruct (generate_map_renders topo_data width height filename w)
    as (wide & high & lo & hi & cells & _ & _ & _ & _ & _ & _ & E); auto.
  rewrite E, Hext. reflexivity.
Qed.


End Outcomes.

(** ** Strides, continued *)

Lemma auto_stride_at_least_1 lo hi ih r :
  auto_stride lo hi ih = Ok r -> exists k, r = PInt k /\ 1 <= k.
Proof.
  unfold auto_stride. destruct (stride_quotient lo hi ih) as [[z|q]|e]; cbn [rbind];
    [| |discriminate].
  - unfold py_max, py_gt. destruct (Z.ltb_spec 1 z); cbn [py_int rbind];
      intros [= <-]; eexists; split; try reflexivity; lia.
  - destruct (float_to_int q) as [t|e] eqn:Ht.
    + rewrite (py_int_max_1 q t Ht). cbn [rbind]. intros [= <-].
      eexists; split; [reflexivity|lia].
    + destruct q as [s|[]| |s m e']; try discriminate; cbn; intros [= <-];
        eexists; split; try reflexivity; lia.
Qed.

Lemma resolve_stride_nonzero stride lo hi ih r :
  resolve_stride stride lo hi ih = Ok r ->
  py_eqb r (PInt 0) = false /\
  (py_eqb stride (PInt 0) = true -> exists k, r = PInt k /\ 1 <= k) /\
  (py_eqb stride (PInt 0) = false -> r = stride).
Proof.
  unfold resolve_stride. destruct (py_eqb stride (PInt 0)) eqn:Hz.
  - intros H. destruct (auto_stride_at_least_1 _ _ _ _ H) as (k & -> & Hk).
    repeat split; [|eauto|discriminate]. cbn. apply Z.eqb_neq. lia.
  - intros [= <-]. repeat split; auto. discriminate.
Qed.

(** X10: no stride of a query is 0. Whenever the strides resolve, neither
    effective stride equals 0; a stride given as 0 becomes an integer of at
    least 1 (also when the quotient is a NaN or minus infinity), and any
    other stride is kept as it is. *)
Theorem effective_strides_nonzero
    (min_latitude max_latitude latitude_stride
     min_longitude max_longitude longitude_stride : pynum)
    (image_height : Z) (ls gs : pynum) :
  effective_strides (min_latitude, max_latitude, latitude_stride,
                     min_longitude, max_longitude, longitude_stride) image_height
  = Ok (ls, gs) ->
  py_eqb ls (PInt 0) = false /\ py_eqb gs (PInt 0) = false /\
  (py_eqb latitude_stride (PInt 0) = true -> exists k, ls = PInt k /\ 1 <= k) /\
  (py_eqb longitude_stride (PInt 0) = true -> exists k, gs = PInt k /\ 1 <= k) /\
  (py_eqb latitude_stride (PInt 0) = false -> ls = latitude_stride) /\
  (py_eqb longitude_stride (PInt 0) = false -> gs = longitude_stride).
Proof.
  unfold effective_strides.
  destruct (resolve_stride latitude_stride _ _ _) as [l|] eqn:Hl; [|discriminate].
  destruct (resolve_stride longitude_stride _ _ _) as [g|] eqn:Hg; [|discriminate].
  cbn [rbind]. intros [= <- <-].
  destruct (resolve_stride_nonzero _ _ _ _ _ Hl) as (L1 & L2 & L3).
  destruct (resolve_stride_nonzero _ _ _ _ _ Hg) as (G1 & G2 & G3).
  repeat split; auto.
Qed.

Lemma to_float_errors x e : to_float x = Raise e -> e = OverflowError.
Proof.
  destruct x as [z|f]; [|discriminate]. unfold to_float, float_of_int.
  destruct (binary_normalize _ _ _ _ _); congruence.
Qed.

(** With an image height of 0 the quotient of the stride rule cannot be
    computed. *)
Lemma stride_quotient_zero_height lo hi :
  exists e, stride_quotient lo hi 0 = Raise e /\
            (e = ZeroDivisionError \/ e = OverflowError).
Proof.
  unfold stride_quotient.
  assert (forall x, exists e, py_truediv x (PInt 0) = Raise e /\
                              (e = ZeroDivisionError \/ e = OverflowError)) as Hdiv.
  { intros [z|f]; [eexists; split; [reflexivity|auto]|].
    eexists; split; [reflexivity|auto]. }
  destruct (py_sub hi lo) as [span|e] eqn:Hs; cbn [rbind].
  2: { exists e. split; [reflexivity|]. right.
       destruct hi as [a|a], lo as [b|b]; cbn in Hs; try discriminate.
       - destruct (float_of_int a) eqn:Ha; [discriminate|]. cbn in Hs.
         injection Hs as <-. eapply (to_float_errors (PInt a)); eauto.
       - destruct (float_of_int b) eqn:Hb; [discriminate|]. cbn in Hs.
         injection Hs as <-. eapply (to_float_errors (PInt b)); eauto. }
  destruct (py_truediv span (PFloat lit_0_0083333)) as [q|e] eqn:Hq; cbn [rbind].
  2: { exists e. split; [reflexivity|]. right.
       destruct span as [a|a]; cbn in Hq; [|discriminate].
       destruct (float_of_int a) eqn:Ha; [discriminate|]. cbn in Hq.
       injection Hq as <-. eapply (to_float_errors (PInt a)); eauto. }
  apply Hdiv.
Qed.

(** ** The name of the cache file *)

Lemma append_nil (t : string) : "" +:+ t = t.
Proof. reflexivity. Qed.

Lemma append_cons (c : Ascii.ascii) (s t : string) :
  String c s +:+ t = String c (s +:+ t).
Proof. reflexivity. Qed.

Lemma split_numeral (s1 s2 t1 t2 : string) :
  numeral s1 = true -> numeral s2 = true ->
  starts_outside t1 = true -> starts_outside t2 = true ->
  s1 +:+ t1 = s2 +:+ t2 -> s1 = s2 /\ t1 = t2.
Proof.
  revert s2. induction s1 as [|c s1 IH]; intros [|c2 s2];
    rewrite ?append_nil, ?append_cons; cbn [numeral].
  - auto.
  - intros _ H2 H1 _ ->. exfalso. cbn in H1. apply andb_true_iff in H2 as [H2 _].
    rewrite H2 in H1. discriminate.
  - intros H1 _ _ H2 <-. exfalso. cbn in H2. apply andb_true_iff in H1 as [H1 _].
    rewrite H1 in H2. discriminate.
  - intros H1 H2 T1 T2 [= -> E]. apply andb_true_iff in H1 as [_ H1].
    apply andb_true_iff in H2 as [_ H2].
    destruct (IH s2 H1 H2 T1 T2 E) as [-> ->]. auto.
Qed.

Lemma pretty_N_go_numeral (x : N) (s : string) :
  numeral s = true -> numeral (pretty_N_go x s) = true.
Proof.
  revert s. induction (N.lt_wf_0 x) as [x _ IH]. intros s Hs.
  destruct (N.eq_dec x 0%N) as [->|Hx]; [by rewrite pretty_N_go_0|].
  rewrite pretty_N_go_step by lia. apply IH; [apply N.div_lt; lia|].
  cbn [numeral]. rewrite Hs, andb_true_r.
  unfold pretty_N_char. repeat case_match; reflexivity.
Qed.

Lemma pretty_Z_numeral (z : Z) : numeral (pretty z) = true.
Proof.
  assert (forall p : positive, numeral (pretty p) = true) as Hp.
  { intros p. unfold pretty, pretty_positive, pretty, pretty_N.
    destruct (decide _); [reflexivity|]. by apply pretty_N_go_numeral. }
  destruct z as [|p|p]; unfold pretty, pretty_Z; [reflexivity|apply Hp|].
  rewrite append_cons, append_nil. cbn [numeral]. rewrite Hp. reflexivity.
Qed.

Ltac peel H :=
  apply split_numeral in H;
  [|apply pretty_Z_numeral|apply pretty_Z_numeral|reflexivity|reflexivity];
  destruct H as [?%(inj pretty) H]; subst.

Section CacheName.
Context {X : Externals}.

(** [cache_name] is injective on integers. *)
Lemma cache_name_injective (a b c d e f a' b' c' d' e' f' : Z) :
  cache_name (PInt a) (PInt b) (PInt c) (PInt d) (PInt e) (PInt f)
  = cache_name (PInt a') (PInt b') (PInt c') (PInt d') (PInt e') (PInt f') ->
  (a, b, c, d, e, f) = (a', b', c', d', e', f').
Proof.
  unfold cache_name. cbn [py_str]. intros H.
  rewrite ?append_cons, ?append_nil in H. injection H as H.
  peel H. rewrite ?append_cons, ?append_nil in H. injection H as H.
  peel H. rewrite ?append_cons, ?append_nil in H. injection H as H.
  peel H. rewrite ?append_cons, ?append_nil in H. injection H as H.
  peel H. rewrite ?append_cons, ?append_nil in H. injection H as H.
  peel H. rewrite ?append_cons, ?append_nil in H. injection H as H.
  peel H. reflexivity.
Qed.

(** So is the URL of the query. *)
Lemma query_url_injective (a b c d e f a' b' c' d' e' f' : Z) :
  query_url (PInt a) (PInt b) (PInt c) (PInt d) (PInt e) (PInt f)
  = query_url (PInt a') (PInt b') (PInt c') (PInt d') (PInt e') (PInt f') ->
  (a, b, c, d, e, f) = (a', b', c', d', e', f').
Proof.
  unfold query_url. cbn [py_str]. intros H.
  rewrite ?append_cons, ?append_nil in H. injection H as H.
  peel H. rewrite ?append_cons, ?append_nil in H. injection H as H.
  peel H. rewrite ?append_cons, ?append_nil in H. injection H as H.
  peel H. rewrite ?append_cons, ?append_nil in H. injection H as H.
  peel H. rewrite ?append_cons, ?append_nil in H. injection H as H.
  peel H. rewrite ?append_cons, ?append_nil in H. injection H as H.
  peel H. reflexivity.
Qed.

(** X12: the cache is keyed by the query. For integer parameters, two
    parameter tuples have the same cache file name exactly when they are
    equal, and exactly when they have the same URL: a cache file is never
    read for another query, and one query never has two cache files. *)
Theorem cache_name_matches_query (a b c d e f a' b' c' d' e' f' : Z) :
  let name := cache_name (PInt a) (PInt b) (PInt c) (PInt d) (PInt e) (PInt f) in
  let name' := cache_name (PInt a') (PInt b') (PInt c') (PInt d') (PInt e') (PInt f') in
  let url := query_url (PInt a) (PInt b) (PInt c) (PInt d) (PInt e) (PInt f) in
  let url' := query_url (PInt a') (PInt b') (PInt c') (PInt d') (PInt e') (PInt f') in
  (name = name' <-> (a, b, c, d, e, f) = (a', b', c', d', e', f')) /\
  (name = name' <-> url = url').
Proof.
  intros name name' url url'.
  assert (name = name' -> (a, b, c, d, e, f) = (a', b', c', d', e', f')) as Hn
    by apply cache_name_injective.
  assert (url = url' -> (a, b, c, d, e, f) = (a', b', c', d', e', f')) as Hu
    by apply query_url_injective.
  assert ((a, b, c, d, e, f) = (a', b', c', d', e', f') -> name = name' /\ url = url')
    as Heq by (intros [= -> -> -> -> -> ->]; auto).
  split; split; intros H.
  - exact (Hn H).
  - exact (proj1 (Heq H)).
  - exact (proj2 (Heq (Hn H))).
  - exact (proj1 (Heq (Hu H))).
Qed.

End CacheName.

(** ** The calls and the world *)

Lemma effect_nil fn w : effect fn w [] None = w.
Proof. destruct w; unfold effect; simpl. by rewrite app_nil_r. Qed.

Lemma effect_effect fn w o1 o2 u :
  effect fn (effect fn w o1 None) o2 u = effect fn w (o1 ++ o2) u.
Proof. unfold effect; simpl. by rewrite app_assoc. Qed.

Section Calls.
Context {X : Externals}.

(** The result of [generate_map] and the image it stores do not depend on
    the world. *)
Lemma generate_map_effect samples width height fn :
  exists r upd, forall w, generate_map samples width height fn w = (r, effect fn w [] upd).
Proof.
  unfold generate_map, except_ValueError, bind, lift, ret, Image_save.
  destruct (int_truediv height _) as [high|e].
  2: { destruct e; eexists; exists None; intros w; rewrite effect_nil; reflexivity. }
  destruct (int_truediv width _) as [wide|e].
  2: { destruct e; eexists; exists None; intros w; rewrite effect_nil; reflexivity. }
  destruct (Image_new _ _) as [im|e].
  2: { destruct e; eexists; exists None; intros w; rewrite effect_nil; reflexivity. }
  destruct (paint_cells _ _ _ _ _ _) as [im'|e].
  2: { destruct e; eexists; exists None; intros w; rewrite effect_nil; reflexivity. }
  destruct (known_extension fn); [destruct (_ || _)|].
  - exists (Ok false), None. intros w. by rewrite effect_nil.
  - exists (Ok true), (Some im'). intros w. unfold effect, set_files.
    by rewrite app_nil_r.
  - exists (Ok false), None. intros w. by rewrite effect_nil.
Qed.

Lemma generate_map_json_effect topo_data width height fn :
  exists r upd, forall w,
    generate_map_json topo_data width height fn w = (r, effect fn w [] upd).
Proof.
  unfold generate_map_json. destruct (as_samples topo_data).
  - apply generate_map_effect.
  - exists (Raise (rows_error topo_data)), None. intros w. by rewrite effect_nil.
Qed.

(** Given the content of the cache file, the result of the rendering step,
    the lines it prints and the image it stores are determined. *)
Lemma render_cached_effect cache iw ih fn (o : option file) :
  exists r out upd, forall w,
    files w !! cache = o -> render_cached cache iw ih fn w = (r, effect fn w out upd).
Proof.
  unfold render_cached, bind, read_json_from_file, lift, ret.
  destruct o as [[s|im]|].
  - destruct (json_loads s) as [v|] eqn:Hs.
    2: { exists (Raise ValueError), [], None. intros w ->. rewrite Hs. by rewrite effect_nil. }
    destruct (get_topo_data_from_string (Some (json_dumps v))) as [topo_data|e] eqn:Ht.
    2: { exists (Raise e), [], None. intros w ->. rewrite Hs, Ht. by rewrite effect_nil. }
    destruct (py_len topo_data) as [n|e] eqn:Hn.
    2: { exists (Raise e), [], None. intros w ->. rewrite Hs, Ht, Hn. by rewrite effect_nil. }
    destruct (generate_map_json_effect topo_data iw ih fn) as (r & upd & Hg).
    exists (match r with Ok _ => Ok true | Raise e => Raise e end),
      ["pikkus " +:+ pretty n], upd.
    intros w ->. rewrite Hs, Ht, Hn. unfold print. rewrite Hg.
    change {| files := files w; remote := remote w; requests := requests w;
              stdout := stdout w ++ ["pikkus " +:+ pretty n] |}
      with (effect fn w ["pikkus " +:+ pretty n] None).
    rewrite effect_effect. destruct r; reflexivity.
  - exists (Raise ValueError), [], None. intros w ->. by rewrite effect_nil.
  - exists (Raise TypeError), [], None. intros w ->. by rewrite effect_nil.
Qed.

(** A call whose strides cannot be computed ends before any I/O. *)
Lemma call_strides_fail (p : topo_params) iw ih fn w err :
  effective_strides p ih = Raise err ->
  generate_map_with_coordinates p iw ih fn w = (Raise err, w).
Proof.
  destruct p as [[[[[a b] c] d] e] f]. intros Hs.
  unfold generate_map_with_coordinates, bind at 1, lift at 1. rewrite Hs. reflexivity.
Qed.

(** A call when the cache file is absent and the service does not answer. *)
Lemma call_fetch_fails (a b c d e f : pynum) iw ih fn w ls gs :
  effective_strides (a, b, c, d, e, f) ih = Ok (ls, gs) ->
  files w !! cache_name a b ls d e gs = None ->
  remote w (query_url a b ls d e gs) = None ->
  generate_map_with_coordinates (a, b, c, d, e, f) iw ih fn w =
  (Raise URLError,
   {| files := files w; remote := remote w;
      requests := requests w ++ [query_url a b ls d e gs]; stdout := stdout w |}).
Proof.
  intros Hs Hf Hr.
  unfold generate_map_with_coordinates, bind at 1, lift at 1. rewrite Hs.
  unfold bind at 1, path_exists at 1. rewrite Hf.
  rewrite bool_decide_eq_false_2 by (intros [? ?]; discriminate). cbn [negb].
  unfold bind at 1, bind at 1, read_json_from_web, read_web. cbn [remote]. rewrite Hr.
  reflexivity.
Qed.

(** X13: with an image height of 0, a latitude or longitude stride given as
    0 makes [generate_map_with_coordinates] raise [ZeroDivisionError] (or
    [OverflowError], when a bound is an integer beyond the binary64 range)
    before any I/O: no request is sent, no file is written, nothing is
    printed. *)
Theorem zero_height_automatic_stride
    (min_latitude max_latitude latitude_stride
     min_longitude max_longitude longitude_stride : pynum)
    (image_width : Z) (filename : string) (w : world) :
  py_eqb latitude_stride (PInt 0) = true \/ py_eqb longitude_stride (PInt 0) = true ->
  exists e,
    generate_map_with_coordinates
      (min_latitude, max_latitude, latitude_stride,
       min_longitude, max_longitude, longitude_stride) image_width 0 filename w
    = (Raise e, w) /\
    (e = ZeroDivisionError \/ e = OverflowError).
Proof.
  intros Hz.
  assert (forall stride lo hi, py_eqb stride (PInt 0) = true ->
            exists e, resolve_stride stride lo hi 0 = Raise e /\
                      (e = ZeroDivisionError \/ e = OverflowError)) as Hr.
  { intros stride lo hi H. unfold resolve_stride, auto_stride. rewrite H.
    destruct (stride_quotient_zero_height lo hi) as (e & -> & He). eauto. }
  assert (exists e, effective_strides
                      (min_latitude, max_latitude, latitude_stride,
                       min_longitude, max_longitude, longitude_stride) 0 = Raise e /\
                    (e = ZeroDivisionError \/ e = OverflowError)) as (e & He & Hc).
  { unfold effective_strides.
    destruct (py_eqb latitude_stride (PInt 0)) eqn:Hl.
    - destruct (Hr latitude_stride min_latitude max_latitude Hl) as (e & -> & He). eauto.
    - destruct Hz as [Hz|Hz]; [discriminate|].
      unfold resolve_stride at 1. rewrite Hl. cbn [rbind].
      destruct (Hr longitude_stride min_longitude max_longitude Hz) as (e & -> & He). eauto. }
  exists e. split; [|exact Hc]. apply call_strides_fail. exact He.
Qed.

(** X14: the footprint of [generate_map_with_coordinates] when the strides
    resolve: it sends no request when the cache file exists and exactly one,
    the query URL, when it does not; it leaves the service as it is; it
    changes no file other than the cache file and the image file; and it
    deletes nothing. *)
Theorem generate_map_with_coordinates_footprint
    (min_latitude max_latitude latitude_stride
     min_longitude max_longitude longitude_stride : pynum)
    (image_width image_height : Z) (filename : string) (w : world) (ls gs : pynum) :
  let p := (min_latitude, max_latitude, latitude_stride,
            min_longitude, max_longitude, longitude_stride) in
  let cache := cache_name min_latitude max_latitude ls min_longitude max_longitude gs in
  let url := query_url min_latitude max_latitude ls min_longitude max_longitude gs in
  effective_strides p image_height = Ok (ls, gs) ->
  let w' := snd (generate_map_with_coordinates p image_width image_height filename w) in
  requests w' = (if bool_decide (is_Some (files w !! cache)) then requests w
                 else requests w ++ [url]) /\
  remote w' = remote w /\
  (forall k, k <> filename -> k <> cache -> files w' !! k = files w !! k) /\
  (forall k, is_Some (files w !! k) -> is_Some (files w' !! k)).
Proof.
  intros p cache url Hs w'. subst w' p.
  destruct (files w !! cache) as [o|] eqn:Hf.
  - rewrite bool_decide_eq_true_2 by eauto.
    rewrite (call_with_cache _ _ _ _ _ _ _ _ _ w ls gs Hs) by (fold cache; rewrite Hf; eauto).
    destruct (writes_only_render_cached cache image_width image_height filename w)
      as (R & M & F & S).
    fold cache. repeat split; auto.
  - rewrite bool_decide_eq_false_2 by (intros [? ?]; discriminate).
    destruct (remote w url) as [body|] eqn:Hr.
    + rewrite (call_without_cache _ _ _ _ _ _ _ _ _ w ls gs body Hs Hf Hr).
      fold cache url.
      destruct (writes_only_render_cached cache image_width image_height filename
                  {| files := <[cache := TextFile body]> (files w); remote := remote w;
                     requests := requests w ++ [url]; stdout := stdout w |})
        as (R & M & F & S).
      cbn [files requests remote] in *. repeat split; auto.
      * intros k Hk Hc. rewrite F by auto. by rewrite lookup_insert_ne.
      * intros k Hk. apply S. destruct (decide (cache = k)) as [->|Hc].
        -- rewrite lookup_insert_eq. eauto.
        -- by rewrite lookup_insert_ne.
    + rewrite (call_fetch_fails _ _ _ _ _ _ _ _ _ w ls gs Hs Hf Hr). cbn [snd files requests remote].
      auto.
Qed.

(** X15: when the cache file is absent and the service does not answer,
    [generate_map_with_coordinates] raises the [URLError] of [urlopen]; the
    request is sent, no cache file (and no other file) is created and
    nothing is printed. *)
Theorem fetch_failure_leaves_no_cache
    (min_latitude max_latitude latitude_stride
     min_longitude max_longitude longitude_stride : pynum)
    (image_width image_height : Z) (filename : string) (w : world) (ls gs : pynum) :
  let p := (min_latitude, max_latitude, latitude_stride,
            min_longitude, max_longitude, longitude_stride) in
  let cache := cache_name min_latitude max_latitude ls min_longitude max_longitude gs in
  let url := query_url min_latitude max_latitude ls min_longitude max_longitude gs in
  effective_strides p image_height = Ok (ls, gs) ->
  files w !! cache = None ->
  remote w url = None ->
  let r := generate_map_with_coordinates p image_width image_height filename w in
  fst r = Raise URLError /\
  files (snd r) = files w /\ stdout (snd r) = stdout w /\
  requests (snd r) = requests w ++ [url].
Proof.
  intros p cache url Hs Hf Hr r. subst r p.
  rewrite (call_fetch_fails _ _ _ _ _ _ _ _ _ _ ls gs Hs Hf Hr). auto.
Qed.

(** X16: a payload that is not JSON is written to the cache file as it
    came; the call raises [ValueError] when it reads the file back, and so
    does every later call with the same query, whatever the service would
    answer by then, the image width or the file name: the cache file is
    never fetched again. *)
Theorem undecodable_payload_is_cached
    (min_latitude max_latitude latitude_stride
     min_longitude max_longitude longitude_stride : pynum)
    (image_width image_height : Z) (filename : string) (w : world) (ls gs : pynum)
    (body : string) :
  let p := (min_latitude, max_latitude, latitude_stride,
            min_longitude, max_longitude, longitude_stride) in
  let cache := cache_name min_latitude max_latitude ls min_longitude max_longitude gs in
  let url := query_url min_latitude max_latitude ls min_longitude max_longitude gs in
  effective_strides p image_height = Ok (ls, gs) ->
  files w !! cache = None ->
  remote w url = Some body ->
  json_loads body = None ->
  let w1 := {| files := <[cache := TextFile body]> (files w); remote := remote w;
               requests := requests w ++ [url]; stdout := stdout w |} in
  generate_map_with_coordinates p image_width image_height filename w
  = (Raise ValueError, w1) /\
  forall (service : string -> option string) (width' : Z) (filename' : string),
    generate_map_with_coordinates p width' image_height filename' (with_remote w1 service)
    = (Raise ValueError, with_remote w1 service).
Proof.
  intros p cache url Hs Hf Hr Hb w1. subst p. split.
  - rewrite (call_without_cache _ _ _ _ _ _ _ _ _ _ ls gs body Hs Hf Hr).
    fold cache url w1. unfold render_cached, bind at 1.
    rewrite (read_json_from_file_invalid cache body w1); [reflexivity| |exact Hb].
    apply lookup_insert_eq.
  - intros service width' filename'.
    assert (files (with_remote w1 service) !! cache = Some (TextFile body)) as Hc
      by apply lookup_insert_eq.
    rewrite (call_with_cache _ _ _ _ _ _ _ _ _ _ ls gs Hs) by (fold cache; rewrite Hc; eauto).
    fold cache. unfold render_cached, bind at 1.
    rewrite (read_json_from_file_invalid cache body _ Hc Hb). reflexivity.
Qed.

(** X17: with the cache file in place the service is not needed:
    [generate_map_with_coordinates] sends no request, and with any other
    service (one that answers nothing, say) it returns the same result and
    leaves the same files and the same output. *)
Theorem cache_hit_needs_no_service
    (min_latitude max_latitude latitude_stride
     min_longitude max_longitude longitude_stride : pynum)
    (image_width image_height : Z) (filename : string) (w : world) (ls gs : pynum)
    (service : string -> option string) :
  let p := (min_latitude, max_latitude, latitude_stride,
            min_longitude, max_longitude, longitude_stride) in
  let cache := cache_name min_latitude max_latitude ls min_longitude max_longitude gs in
  effective_strides p image_height = Ok (ls, gs) ->
  is_Some (files w !! cache) ->
  let r := generate_map_with_coordinates p image_width image_height filename w in
  requests (snd r) = requests w /\
  generate_map_with_coordinates p image_width image_height filename (with_remote w service)
  = (fst r, with_remote (snd r) service).
Proof.
  intros p cache Hs Hc r. subst r p.
  rewrite (call_with_cache _ _ _ _ _ _ _ _ _ w ls gs Hs Hc).
  rewrite (call_with_cache _ _ _ _ _ _ _ _ _ (with_remote w service) ls gs Hs Hc).
  fold cache.
  destruct (render_cached_effect cache image_width image_height filename (files w !! cache))
    as (r & out & upd & Hr).
  rewrite (Hr w eq_refl), (Hr (with_remote w service) eq_refl). auto.
Qed.

(** X18: calling [generate_map_with_coordinates] a second time with the
    same arguments gives the same result (the same value or the same
    exception) and leaves the same files as the first call, provided the
    image is not written over the cache file. *)
Theorem repeated_call_same_outcome
    (min_latitude max_latitude latitude_stride
     min_longitude max_longitude longitude_stride : pynum)
    (image_width image_height : Z) (filename : string) (w : world) (ls gs : pynum) :
  let p := (min_latitude, max_latitude, latitude_stride,
            min_longitude, max_longitude, longitude_stride) in
  let cache := cache_name min_latitude max_latitude ls min_longitude max_longitude gs in
  effective_strides p image_height = Ok (ls, gs) ->
  filename <> cache ->
  let r1 := generate_map_with_coordinates p image_width image_height filename w in
  let r2 := generate_map_with_coordinates p image_width image_height filename (snd r1) in
  fst r2 = fst r1 /\ files (snd r2) = files (snd r1).
Proof.
  intros p cache Hs Hne r1 r2. subst r2 r1 p.
  assert (forall w0 o, files w0 !! cache = Some o ->
            let q1 := render_cached cache image_width image_height filename w0 in
            let q2 := generate_map_with_coordinates
                        (min_latitude, max_latitude, latitude_stride,
                         min_longitude, max_longitude, longitude_stride)
                        image_width image_height filename (snd q1) in
            fst q2 = fst q1 /\ files (snd q2) = files (snd q1)) as Hrender.
  { intros w0 o Ho q1 q2.
    destruct (render_cached_effect cache image_width image_height filename (Some o))
      as (r & out & upd & Hr).
    subst q2 q1. rewrite (Hr w0 Ho). cbn [fst snd].
    assert (files (effect filename w0 out upd) !! cache = Some o) as Ho'.
    { unfold effect; cbn [files]. destruct upd; [rewrite lookup_insert_ne|]; auto. }
    rewrite (call_with_cache _ _ _ _ _ _ _ _ _ _ ls gs Hs)
      by (fold cache; rewrite Ho'; eauto).
    fold cache. rewrite (Hr _ Ho'). cbn [fst snd]. split; [reflexivity|].
    unfold effect; cbn [files]. destruct upd; [|reflexivity].
    apply insert_insert_eq. }
  destruct (files w !! cache) as [o|] eqn:Hf.
  - rewrite (call_with_cache _ _ _ _ _ _ _ _ _ w ls gs Hs) by (fold cache; rewrite Hf; eauto).
    fold cache. exact (Hrender w o Hf).
  - destruct (remote w (query_url min_latitude max_latitude ls min_longitude max_longitude gs))
      as [body|] eqn:Hr.
    + rewrite (call_without_cache _ _ _ _ _ _ _ _ _ w ls gs body Hs Hf Hr).
      fold cache. apply (Hrender _ (TextFile body)). apply lookup_insert_eq.
    + rewrite (call_fetch_fails _ _ _ _ _ _ _ _ _ w ls gs Hs Hf Hr). cbn [fst snd].
      match goal with
      | |- context [generate_map_with_coordinates _ _ _ _ ?w1] =>
          rewrite (call_fetch_fails _ _ _ _ _ _ image_width image_height filename w1
                     ls gs Hs Hf Hr)
      end.
      auto.
Qed.

(** Given the answer of the service, the result of the [__main__] block and
    the image it stores are determined. *)
Lemma main_effect (answer : option string) :
  exists r upd, forall w,
    remote w main_url = answer ->
    main w = (r, effect "mymap.png"
                   {| files := files w; remote := remote w;
                      requests := requests w ++ [main_url]; stdout := stdout w |}
                   [] upd).
Proof.
  unfold main, bind, read_json_from_web, read_web, lift, ret. fold main_url.
  destruct answer as [s|].
  - destruct (get_topo_data_from_string (Some s)) as [topo_data|e] eqn:Ht.
    2: { exists (Raise e), None. intros w ->. rewrite Ht. by rewrite effect_nil. }
    destruct (generate_map_json_effect topo_data 1500 1000 "mymap.png") as (r & upd & Hg).
    exists (match r with Ok _ => Ok tt | Raise e => Raise e end), upd.
    intros w ->. rewrite Ht, Hg. destruct r; reflexivity.
  - exists (Raise URLError), None. intros w ->. by rewrite effect_nil.
Qed.

(** The [__main__] block when the service does not answer. *)
Lemma main_offline (w : world) :
  remote w main_url = None ->
  main w = (Raise URLError,
            {| files := files w; remote := remote w;
               requests := requests w ++ [main_url]; stdout := stdout w |}).
Proof.
  intros H. unfold main, bind, read_json_from_web, read_web. fold main_url.
  rewrite H. reflexivity.
Qed.

(** X19: the [__main__] block sends exactly one request, for latitudes 57.5
    to 60 and longitudes 22 to 29 with strides 2, whatever the files are (it
    uses no cache file); it prints nothing and changes no file other than
    [mymap.png]; when the service does not answer it raises [URLError] and
    writes nothing; and its result depends on the answer of the service
    only. *)
Theorem main_footprint (w : world) :
  let w' := snd (main w) in
  requests w' = requests w ++ [main_url] /\
  remote w' = remote w /\ stdout w' = stdout w /\
  (forall k, k <> "mymap.png"%string -> files w' !! k = files w !! k) /\
  (remote w main_url = None -> fst (main w) = Raise URLError /\ files w' = files w) /\
  (forall w2, remote w2 main_url = remote w main_url -> fst (main w2) = fst (main w)).
Proof.
  intros w'. subst w'.
  destruct (main_effect (remote w main_url)) as (r & upd & Hm).
  repeat split.
  - by rewrite (Hm w eq_refl).
  - by rewrite (Hm w eq_refl).
  - rewrite (Hm w eq_refl). cbn. by rewrite app_nil_r.
  - intros k Hk. rewrite (Hm w eq_refl). cbn [snd files effect].
    destruct upd; [by rewrite lookup_insert_ne|reflexivity].
  - by rewrite (main_offline w H).
  - by rewrite (main_offline w H).
  - intros w2 H2. rewrite (Hm w2 H2), (Hm w eq_refl). reflexivity.
Qed.

End Calls.

(** ** Instances of the properties above *)

(** [57.5] is the quotient [115 / 2], which binary64 holds exactly. *)
Example lit_57_5_exact : int_truediv 115 2 = Ok lit_57_5.
Proof. vm_compute. reflexivity. Qed.

Lemma calculate_color_endpoints_witness :
  calculate_color 12 1 12 = Ok (0, 0, 0) /\
  calculate_color (-7) (-7) 12 = Ok (0, 0, 0) /\
  calculate_color 0 (-7) 12 = Ok (0, 255, 0).
Proof.
  destruct (calculate_color_endpoints 1 12) as (H1 & _ & H3).
  destruct (calculate_color_endpoints (-7) 12) as (_ & H2 & H4).
  split; [apply H1; lia|split; [apply H2; lia|apply H4; lia]].
Defined.



Lemma generate_map_negative_size_witness :
  generate_map (X := example_externals) docstring_samples 100 (-1) "map.png" fresh_world
  = (Ok false, fresh_world).
Proof.
  apply (generate_map_negative_size (X := example_externals)); try lia; try discriminate.
Defined.

Lemma generate_map_unknown_extension_witness :
  generate_map (X := example_externals) docstring_samples 100 100 "map.json" fresh_world
  = (Ok false, fresh_world).
Proof.
  apply (generate_map_unknown_extension (X := example_externals) docstring_samples 100 100
           "map.json" fresh_world);
    try reflexivity; try lia; try discriminate.
Defined.


Lemma effective_strides_nonzero_witness :
  py_eqb (PInt 1) (PInt 0) = false /\ py_eqb (PInt 2) (PInt 0) = false /\
  (py_eqb (PInt 0) (PInt 0) = true -> exists k, PInt 1 = PInt k /\ 1 <= k) /\
  (py_eqb (PInt 2) (PInt 0) = true -> exists k, PInt 2 = PInt k /\ 1 <= k) /\
  (py_eqb (PInt 0) (PInt 0) = false -> PInt 1 = PInt 0) /\
  (py_eqb (PInt 2) (PInt 0) = false -> PInt 2 = PInt 2).
Proof.
  apply (effective_strides_nonzero (PInt 0) (PInt 1) (PInt 0) (PInt 22) (PInt 29) (PInt 2) 70).
  vm_compute. reflexivity.
Defined.

Lemma zero_height_automatic_stride_witness :
  exists e,
    generate_map_with_coordinates (X := example_externals)
      (PInt 10, PInt 12, PInt 0, PInt 10, PInt 12, PInt 2) 100 0 "map.png" fresh_world
    = (Raise e, fresh_world) /\
    (e = ZeroDivisionError \/ e = OverflowError).
Proof.
  apply (zero_height_automatic_stride (X := example_externals)
           (PInt 10) (PInt 12) (PInt 0) (PInt 10) (PInt 12) (PInt 2)
           100 "map.png" fresh_world).
  left. reflexivity.
Defined.

Lemma generate_map_with_coordinates_footprint_witness :
  let w' := snd (generate_map_with_coordinates (X := example_externals) example_params
                   100 100 "map.png" fresh_world) in
  requests w' = (if bool_decide (is_Some (files fresh_world !! example_cache))
                 then requests fresh_world
                 else requests fresh_world ++ [example_url]) /\
  remote w' = remote fresh_world /\
  (forall k, k <> "map.png"%string -> k <> example_cache ->
             files w' !! k = files fresh_world !! k) /\
  (forall k, is_Some (files fresh_world !! k) -> is_Some (files w' !! k)).
Proof.
  apply (generate_map_with_coordinates_footprint (X := example_externals)
           (PInt 10) (PInt 12) (PInt 2) (PInt 10) (PInt 12) (PInt 2)
           100 100 "map.png" fresh_world (PInt 2) (PInt 2)).
  reflexivity.
Defined.

Lemma fetch_failure_leaves_no_cache_witness :
  let r := generate_map_with_coordinates (X := example_externals) unanswered_params
             100 100 "map.png" fresh_world in
  fst r = Raise URLError /\
  files (snd r) = files fresh_world /\ stdout (snd r) = stdout fresh_world /\
  requests (snd r) = requests fresh_world ++
    [query_url (X := example_externals)
       (PInt 10) (PInt 12) (PInt 1) (PInt 10) (PInt 12) (PInt 1)].
Proof.
  apply (fetch_failure_leaves_no_cache (X := example_externals)
           (PInt 10) (PInt 12) (PInt 1) (PInt 10) (PInt 12) (PInt 1)
           100 100 "map.png" fresh_world (PInt 1) (PInt 1));
    reflexivity.
Defined.

Lemma undecodable_payload_is_cached_witness :
  let w1 := {| files := <[example_cache := TextFile "<html>"]> (files broken_world);
               remote := remote broken_world;
               requests := requests broken_world ++ [example_url];
               stdout := stdout broken_world |} in
  generate_map_with_coordinates (X := example_externals) example_params 100 100 "map.png"
    broken_world
  = (Raise ValueError, w1) /\
  forall (service : string -> option string) (width' : Z) (filename' : string),
    generate_map_with_coordinates (X := example_externals) example_params width' 100
      filename' (with_remote w1 service)
    = (Raise ValueError, with_remote w1 service).
Proof.
  apply (undecodable_payload_is_cached (X := example_externals)
           (PInt 10) (PInt 12) (PInt 2) (PInt 10) (PInt 12) (PInt 2)
           100 100 "map.png" broken_world (PInt 2) (PInt 2) "<html>");
    reflexivity.
Defined.

Lemma cache_hit_needs_no_service_witness :
  let r := generate_map_with_coordinates (X := example_externals) example_params
             100 100 "map.png" cached_world in
  requests (snd r) = requests cached_world /\
  generate_map_with_coordinates (X := example_externals) example_params 100 100 "map.png"
    (with_remote cached_world (fun _ => None))
  = (fst r, with_remote (snd r) (fun _ => None)).
Proof.
  apply (cache_hit_needs_no_service (X := example_externals)
           (PInt 10) (PInt 12) (PInt 2) (PInt 10) (PInt 12) (PInt 2)
           100 100 "map.png" cached_world (PInt 2) (PInt 2) (fun _ => None)).
  - reflexivity.
  - vm_compute. eauto.
Defined.

Lemma repeated_call_same_outcome_witness :
  let r1 := generate_map_with_coordinates (X := example_externals) example_params
              100 100 "map.png" fresh_world in
  let r2 := generate_map_with_coordinates (X := example_externals) example_params
              100 100 "map.png" (snd r1) in
  fst r2 = fst r1 /\ files (snd r2) = files (snd r1).
Proof.
  apply (repeated_call_same_outcome (X := example_externals)
           (PInt 10) (PInt 12) (PInt 2) (PInt 10) (PInt 12) (PInt 2)
           100 100 "map.png" fresh_world (PInt 2) (PInt 2)).
  - reflexivity.
  - vm_compute. discriminate.
Defined.
